(** * MCP-Optimiser: the tool registry and the two agent-facing tools

    A shallow embedding of [optimizer.py]: the class [MCPToolRegistry]
    (register, search, get, servers) and the two closures built by
    [_make_tools] (find_tool, call_tool), followed by the properties the
    specification states about them.

    Conventions of the embedding.
    - A Python [str] is a [string]; each character is read as the code point
      of the same number (0..255).  [str.lower], [str.strip] and the regular
      expression class [\w] follow Python's Unicode tables on that range.
    - A score [len(found) / len(words)] is a rational: both operands are
      small natural numbers with a common positive denominator inside one
      search, so the float quotient orders and vanishes exactly as the
      rational does.
    - The live session ([started_client]) is a handle; what the backend
      answers is a function of the world, passed to [call_tool], and every
      access to the catalog or to a session is recorded in a trace.
    - [uuid.uuid4().hex] is an input of [call_tool], and so is what
      [json.loads] meets of the running interpreter: the room left for
      nested calls and the limit on the digits of an integer. *)

From Stdlib Require Import ZArith QArith List Ascii String Sorted Permutation.
From stdpp Require Import gmap strings list fin_maps pretty.

Open Scope string_scope.
Set Warnings "-register-all,-clear-no-such-hyp".

(* ===================================================================== *)
(** ** Python strings *)
(* ===================================================================== *)

Module PyStr.

Definition code (c : ascii) : N := N_of_ascii c.

Definition between (lo hi : N) (c : ascii) : bool :=
  ((lo <=? code c) && (code c <=? hi))%N.

Definition chr (n : N) : ascii := ascii_of_N n.

(** One-character strings that cannot be written as literals. *)
Definition nl : string := String (chr 10) "".
Definition dq : string := String (chr 34) "".
Definition sq : string := String (chr 39) "".
Definition bs : string := String (chr 92) "".

(** [str.isspace] on code points below 256: the characters [str.strip]
    removes. *)
Definition is_space (c : ascii) : bool :=
  between 9 13 c || between 28 32 c || (code c =? 133)%N || (code c =? 160)%N.

(** [str.lower] on one character: the upper-case letters of ASCII and of
    Latin-1 (all of 0xC0..0xDE but the multiplication sign). *)
Definition lower_char (c : ascii) : ascii :=
  if between 65 90 c || between 192 214 c || between 216 222 c
  then chr (code c + 32) else c.

Fixpoint lower (s : string) : string :=
  match s with
  | EmptyString => EmptyString
  | String c s' => String (lower_char c) (lower s')
  end.

(** The class [\w] of [re] on a [str] pattern: alphanumeric in the Unicode
    sense, or the underscore. *)
Definition is_word (c : ascii) : bool :=
  between 48 57 c || between 65 90 c || (code c =? 95)%N || between 97 122 c
  || (code c =? 170)%N || between 178 179 c || (code c =? 181)%N
  || between 185 186 c || between 188 190 c
  || between 192 214 c || between 216 246 c || between 248 255 c.

Definition flush (cur : string) : list string :=
  match cur with EmptyString => [] | _ => [cur] end.

(** [re.findall(r"\w+", s)]: the maximal runs of word characters, left to
    right; [cur] is the run being read. *)
Fixpoint findall_words_from (cur s : string) : list string :=
  match s with
  | EmptyString => flush cur
  | String c s' =>
      if is_word c then findall_words_from (cur ++ String c "") s'
      else flush cur ++ findall_words_from "" s'
  end.

Definition findall_words (s : string) : list string := findall_words_from "" s.

Fixpoint lstrip (s : string) : string :=
  match s with
  | String c s' => if is_space c then lstrip s' else s
  | EmptyString => EmptyString
  end.

Fixpoint rev (s : string) : string :=
  match s with
  | EmptyString => EmptyString
  | String c s' => rev s' ++ String c ""
  end.

Definition rstrip (s : string) : string := rev (lstrip (rev s)).

(** [s.strip()] *)
Definition strip (s : string) : string := rstrip (lstrip s).

(** [sep.join(parts)] *)
Definition join (sep : string) (parts : list string) : string :=
  String.concat sep parts.

(** [s[:n]] for [0 <= n] *)
Fixpoint prefix (n : nat) (s : string) : string :=
  match n, s with
  | S n', String c s' => String c (prefix n' s')
  | _, _ => EmptyString
  end.

Fixpoint mem (c : ascii) (s : string) : bool :=
  match s with
  | EmptyString => false
  | String d s' => if Ascii.eqb c d then true else mem c s'
  end.

Definition hex_digit (n : N) : ascii :=
  if (n <? 10)%N then chr (48 + n) else chr (87 + n).

(** [\xhh] *)
Definition hex_escape (c : ascii) : string :=
  bs ++ "x" ++ String (hex_digit (code c / 16)) (String (hex_digit (code c mod 16)) "").

(** [str.isprintable] on one character below 256. *)
Definition is_printable (c : ascii) : bool :=
  between 32 126 c || (between 161 255 c && negb (code c =? 173)%N).

Definition repr_char (quote c : ascii) : string :=
  if Ascii.eqb c quote || (code c =? 92)%N then bs ++ String c ""
  else if (code c =? 9)%N then bs ++ "t"
  else if (code c =? 10)%N then bs ++ "n"
  else if (code c =? 13)%N then bs ++ "r"
  else if is_printable c then String c ""
  else hex_escape c.

Fixpoint repr_body (quote : ascii) (s : string) : string :=
  match s with
  | EmptyString => EmptyString
  | String c s' => repr_char quote c ++ repr_body quote s'
  end.

(** [repr(s)]: single quotes, unless the text holds a single quote and no
    double quote. *)
Definition repr (s : string) : string :=
  let quote := if mem (chr 39) s && negb (mem (chr 34) s) then chr 34 else chr 39 in
  String quote (repr_body quote s) ++ String quote "".

(** [l[:k]] on a list: a negative [k] counts from the end. *)
Definition slice_to {A} (k : Z) (l : list A) : list A :=
  if (0 <=? k)%Z then take (Z.to_nat k) l
  else take (length l - Z.to_nat (- k)) l.

End PyStr.

(* ===================================================================== *)
(** ** Python values, as a session may return them *)
(* ===================================================================== *)

(** The result of [call_tool_sync] is untyped.  [PyObj] is any object that is
    not one of the built-in shapes, such as the content objects of an MCP
    result: it carries what the code can observe of it, the value of its
    [text] attribute if it has one, and the texts [str()] and [repr()] give;
    such an object is truthy and is not iterable.  Dict keys are strings, in
    insertion order. *)
Inductive pyvalue : Type :=
| PyNone
| PyBool (b : bool)
| PyInt (z : Z)
| PyStr (s : string)
| PyList (l : list pyvalue)
| PyDict (d : list (string * pyvalue))
| PyObj (text : option pyvalue) (shown printed : string).

Module Py.

(** [bool(v)] *)
Definition truthy (v : pyvalue) : bool :=
  match v with
  | PyNone => false
  | PyBool b => b
  | PyInt z => negb (z =? 0)%Z
  | PyStr s => negb (String.eqb s "")
  | PyList l => match l with [] => false | _ => true end
  | PyDict d => match d with [] => false | _ => true end
  | PyObj _ _ _ => true
  end.

Fixpoint repr (v : pyvalue) : string :=
  match v with
  | PyNone => "None"
  | PyBool true => "True"
  | PyBool false => "False"
  | PyInt z => pretty z
  | PyStr s => PyStr.repr s
  | PyList l => "[" ++ PyStr.join ", " (map repr l) ++ "]"
  | PyDict d =>
      "{" ++ PyStr.join ", "
               (map (fun kv => PyStr.repr (fst kv) ++ ": " ++ repr (snd kv)) d)
          ++ "}"
  | PyObj _ _ printed => printed
  end.

(** [str(v)] *)
Definition str (v : pyvalue) : string :=
  match v with
  | PyStr s => s
  | PyObj _ shown _ => shown
  | _ => repr v
  end.

(** [d.get(key, default)] *)
Fixpoint dict_get {V} (key : string) (d : list (string * V)) : option V :=
  match d with
  | [] => None
  | (k, v) :: d' => if String.eqb k key then Some v else dict_get key d'
  end.

Definition get (key : string) (default : pyvalue) (d : list (string * pyvalue)) : pyvalue :=
  match dict_get key d with Some v => v | None => default end.

(** [getattr(v, "text", "")]: only an object can have the attribute. *)
Definition getattr_text (v : pyvalue) : pyvalue :=
  match v with
  | PyObj (Some t) _ _ => t
  | _ => PyStr ""
  end.

(** What [for block in v] visits; [None] when [v] is not iterable.  A dict
    yields its keys, a string its characters. *)
Definition iterate (v : pyvalue) : option (list pyvalue) :=
  match v with
  | PyList l => Some l
  | PyDict d => Some (map (fun kv => PyStr (fst kv)) d)
  | PyStr s => Some (map (fun c => PyStr (String c "")) (list_ascii_of_string s))
  | _ => None
  end.

(** [v == "error"] *)
Definition eq_str (v : pyvalue) (s : string) : bool :=
  match v with PyStr t => String.eqb t s | _ => false end.

End Py.

(* ===================================================================== *)
(** ** Exceptions and the limits of the interpreter *)
(* ===================================================================== *)

(** A raised exception: [type(exc).__name__], [str(exc)] and whether its
    class derives from [Exception], which is what [except Exception]
    tests; [KeyboardInterrupt], [SystemExit], [GeneratorExit] and
    [asyncio.CancelledError] derive from [BaseException] only. *)
Record exception : Type := {
  exc_type : string;
  exc_text : string;
  is_Exception : bool
}.

(** What [json.loads] can meet of the running interpreter: the number of
    nested calls the decoder may still enter before [Py_EnterRecursiveCall]
    fails, and [sys.get_int_max_str_digits()] (4300 unless it was changed;
    0 turns the limit off). *)
Record interpreter : Type := {
  recursion_room : nat;
  int_max_str_digits : nat
}.

(* ===================================================================== *)
(** ** JSON values and [json.loads] *)
(* ===================================================================== *)

(** A decoded JSON document, the shape of tool arguments and input schemas.
    A JSON string is a sequence of code points (an escape can denote any of
    them); a float is kept as the literal it was read from.  The decoder
    below follows what [json.loads] runs in CPython: [JSONDecoder.decode]
    of [json/decoder.py] over the scanner of the accelerator module
    ([c_make_scanner] and [c_scanstring] of [_json.c]), error messages and
    positions included. *)
Inductive json : Type :=
| JNull
| JBool (b : bool)
| JInt (z : Z)
| JFloat (literal : string)
| JStr (s : list N)
| JArr (l : list json)
| JObj (d : list (list N * json)).

Module Json.
Import PyStr.

Definition codepoints (s : string) : list N := map code (list_ascii_of_string s).

(** [json.JSONDecodeError(msg, doc, pos)] *)
Record JSONDecodeError : Type := { msg : string; doc : string; pos : nat }.

(** Line and column of position [n] in [s], counted from [line], [col]. *)
Fixpoint line_col (s : string) (n : nat) (line col : nat) : nat * nat :=
  match n, s with
  | S n', String c s' =>
      if (code c =? 10)%N then line_col s' n' (S line) 1 else line_col s' n' line (S col)
  | _, _ => (line, col)
  end.

(** [str(exc)] *)
Definition error_str (e : JSONDecodeError) : string :=
  let lc := line_col (doc e) (pos e) 1 1 in
  msg e ++ ": line " ++ pretty (fst lc) ++ " column " ++ pretty (snd lc)
    ++ " (char " ++ pretty (pos e) ++ ")".

(** Outcome of a scanning step: a value; a [JSONDecodeError] with its
    message and position; the [RecursionError] of a container nested deeper
    than the interpreter allows; the [ValueError] of [int] on more digits
    than the limit.  [Exhausted] is the end of the budget that makes the
    recursion below structural, which [loads] never meets (see
    [decode_not_exhausted]). *)
Inductive scan (A : Type) : Type :=
| Ok (a : A)
| Err (message : string) (at_pos : nat)
| TooDeep (container : string)
| TooLong (digits : nat)
| Exhausted.
Arguments Ok {A} a.
Arguments Err {A} message at_pos.
Arguments TooDeep {A} container.
Arguments TooLong {A} digits.
Arguments Exhausted {A}.

Definition bind {A B} (m : scan A) (k : A -> scan B) : scan B :=
  match m with
  | Ok a => k a
  | Err message at_pos => Err message at_pos
  | TooDeep container => TooDeep container
  | TooLong digits => TooLong digits
  | Exhausted => Exhausted
  end.

Notation "'let*' x := m 'in' k" := (bind m (fun x => k))
  (at level 10, x strict pattern, m at level 100, k at level 200).

(** A cursor: the text still to read and the index of its first character. *)
Definition cursor : Type := list ascii * nat.

Definition is_ws (c : ascii) : bool :=
  (code c =? 32)%N || (code c =? 9)%N || (code c =? 10)%N || (code c =? 13)%N.

(** The loops [while (idx <= end_idx && IS_WHITESPACE(...)) idx++], and
    [WHITESPACE.match(s, i).end()] in [decode]. *)
Fixpoint skip_ws (s : list ascii) (i : nat) : cursor :=
  match s with
  | c :: s' => if is_ws c then skip_ws s' (S i) else (s, i)
  | [] => (s, i)
  end.

Definition is_digit (c : ascii) : bool := between 48 57 c.

Definition hex_value (c : ascii) : option N :=
  if between 48 57 c then Some (code c - 48)%N
  else if between 65 70 c then Some (code c - 55)%N
  else if between 97 102 c then Some (code c - 87)%N
  else None.

(** The value of four hexadecimal digits, when they are such. *)
Definition hex4 (h1 h2 h3 h4 : ascii) : option N :=
  match hex_value h1, hex_value h2, hex_value h3, hex_value h4 with
  | Some a, Some b, Some c, Some d => Some (((a * 16 + b) * 16 + c) * 16 + d)%N
  | _, _, _, _ => None
  end.

(** The escapes of one character after a backslash. *)
Definition backslash (esc : ascii) : option N :=
  let e := code esc in
  if (e =? 34)%N then Some 34%N
  else if (e =? 92)%N then Some 92%N
  else if (e =? 47)%N then Some 47%N
  else if (e =? 98)%N then Some 8%N
  else if (e =? 102)%N then Some 12%N
  else if (e =? 110)%N then Some 10%N
  else if (e =? 114)%N then Some 13%N
  else if (e =? 116)%N then Some 9%N
  else None.

Definition is_high_surrogate (u : N) : bool := ((55296 <=? u) && (u <=? 56319))%N.
Definition is_low_surrogate (u : N) : bool := ((56320 <=? u) && (u <=? 57343))%N.

Definition bad_uescape : string := "Invalid " ++ bs ++ "uXXXX escape".
Definition bad_escape : string := "Invalid " ++ bs ++ "escape".

(** [scanstring_unicode(pystr, end, strict=1)]: [s] starts after the
    opening quote, at index [i]; [begin] is the index of that quote and
    [acc] the code points read so far.  A control character is reported at
    its own index and a wrong escape at the index of its backslash; a
    [uXXXX] escape that is wrong, or is not followed by a character, at the
    index of its [u].  A second escape is read as the low half of a pair
    only when it is followed by a character too. *)
Fixpoint scanstring (begin : nat) (acc : list N) (s : list ascii) (i : nat)
  : scan (list N * cursor) :=
  match s with
  | [] => Err "Unterminated string starting at" begin
  | c :: s' =>
      if (code c =? 34)%N then Ok (acc, (s', S i))
      else if (code c =? 92)%N then
        match s' with
        | [] => Err "Unterminated string starting at" begin
        | esc :: s'' =>
            if (code esc =? 117)%N then
              match s'' with
              | h1 :: h2 :: h3 :: h4 :: ((_ :: _) as rest) =>
                  match hex4 h1 h2 h3 h4 with
                  | None => Err bad_uescape (S i)
                  | Some uni =>
                      let single := scanstring begin (acc ++ [uni])%list rest (i + 6) in
                      if is_high_surrogate uni then
                        match rest with
                        | b :: u :: g1 :: g2 :: g3 :: g4 :: ((_ :: _) as rest2) =>
                            if (code b =? 92)%N && (code u =? 117)%N then
                              match hex4 g1 g2 g3 g4 with
                              | None => Err bad_uescape (i + 7)
                              | Some uni2 =>
                                  if is_low_surrogate uni2 then
                                    scanstring begin
                                      (acc ++ [(65536 + ((uni - 55296) * 1024 + (uni2 - 56320)))%N])%list
                                      rest2 (i + 12)
                                  else single
                              end
                            else single
                        | _ => single
                        end
                      else single
                  end
              | _ => Err bad_uescape (S i)
              end
            else
              match backslash esc with
              | Some ch => scanstring begin (acc ++ [ch])%list s'' (i + 2)
              | None => Err bad_escape i
              end
        end
      else if (code c <? 32)%N then Err "Invalid control character at" i
      else scanstring begin (acc ++ [code c])%list s' (S i)
  end.

Fixpoint take_digits (s : list ascii) : list ascii * list ascii :=
  match s with
  | c :: s' =>
      if is_digit c then let (ds, rest) := take_digits s' in (c :: ds, rest)
      else ([], s)
  | [] => ([], [])
  end.

(** The integer part of a number: an optional minus sign, then a single 0
    or a non-zero digit followed by digits. *)
Definition match_integer (s : list ascii) : option (list ascii * list ascii) :=
  let (sign, body) :=
    match s with
    | c :: s' => if (code c =? 45)%N then ([c], s') else ([], s)
    | [] => ([], s)
    end in
  match body with
  | c :: s' =>
      if (code c =? 48)%N then Some ((sign ++ [c])%list, s')
      else if is_digit c then
        let (ds, rest) := take_digits s' in Some ((sign ++ c :: ds)%list, rest)
      else None
  | [] => None
  end.

(** The fraction: a dot and at least one digit. *)
Definition match_frac (s : list ascii) : list ascii * list ascii :=
  match s with
  | dot :: s' =>
      if (code dot =? 46)%N then
        match take_digits s' with
        | ([], _) => ([], s)
        | (ds, rest) => (dot :: ds, rest)
        end
      else ([], s)
  | [] => ([], s)
  end.

(** The exponent: e or E, an optional sign and at least one digit;
    without a digit nothing of it is read. *)
Definition match_exp (s : list ascii) : list ascii * list ascii :=
  match s with
  | e :: s' =>
      if (code e =? 101)%N || (code e =? 69)%N then
        let (sign, body) :=
          match s' with
          | c :: s'' => if (code c =? 45)%N || (code c =? 43)%N then ([c], s'') else ([], s')
          | [] => ([], s')
          end in
        match take_digits body with
        | ([], _) => ([], s)
        | (ds, rest) => ((e :: sign ++ ds)%list, rest)
        end
      else ([], s)
  | [] => ([], s)
  end.

Definition digits_value (ds : list ascii) : Z :=
  fold_left (fun acc c => (acc * 10 + Z.of_N (code c - 48))%Z) ds 0%Z.

(** The value [int] gives for the text of the integer part. *)
Definition int_of (text : list ascii) : Z :=
  match text with
  | c :: ds => if (code c =? 45)%N then (- digits_value ds)%Z else digits_value text
  | [] => 0%Z
  end.

(** The number of digits of the text of the integer part, sign apart. *)
Definition int_digits (text : list ascii) : nat :=
  match text with
  | c :: ds => if (code c =? 45)%N then length ds else length text
  | [] => 0%nat
  end.

(** Whether [int] refuses that many decimal digits: more than the limit,
    when there is one; texts of up to 640 digits are never checked. *)
Definition exceeds_limit (limit digits : nat) : bool :=
  (640 <? digits)%nat && (0 <? limit)%nat && (limit <? digits)%nat.

(** [_match_number_unicode]: [None] when no number starts here.  A number
    with a fraction or an exponent is a float; any other goes to [int],
    which raises [ValueError] on too many digits. *)
Definition match_number (limit : nat) (s : list ascii) (i : nat)
  : option (scan (json * cursor)) :=
  match match_integer s with
  | None => None
  | Some (integer, rest) =>
      let (frac, rest1) := match_frac rest in
      let (exp, rest2) := match_exp rest1 in
      let read := (integer ++ frac ++ exp)%list in
      Some (match frac, exp with
            | [], [] =>
                if exceeds_limit limit (int_digits integer)
                then TooLong (int_digits integer)
                else Ok (JInt (int_of integer), (rest2, i + length read))
            | _, _ => Ok (JFloat (string_of_list_ascii read), (rest2, i + length read))
            end)
  end.

(** Whether the text starts with [word], and what follows it. *)
Fixpoint starts_with (word : string) (s : list ascii) : option (list ascii) :=
  match word, s with
  | EmptyString, _ => Some s
  | String w word', c :: s' => if Ascii.eqb w c then starts_with word' s' else None
  | String _ _, [] => None
  end.

(** The dict filled pair by pair: a repeated key keeps its first place and
    takes the last value. *)
Fixpoint dict_set (key : list N) (v : json) (d : list (list N * json))
  : list (list N * json) :=
  match d with
  | [] => [(key, v)]
  | (k, w) :: d' =>
      if decide (k = key) then (k, v) :: d' else (k, w) :: dict_set key v d'
  end.

Definition dict_of (pairs : list (list N * json)) : list (list N * json) :=
  fold_left (fun d kv => dict_set (fst kv) (snd kv) d) pairs [].

Definition expecting_name : string :=
  "Expecting property name enclosed in double quotes".

(** [scan_once_unicode], with [_parse_object_unicode] and
    [_parse_array_unicode]; [object_members] and [array_items] are their
    [while (1)] loops, entered at the place of a key and of a value.
    [depth] is the number of containers that may still be entered: an
    object or an array met at depth 0 raises [RecursionError].  A
    [StopIteration(idx)] is raised only to be turned into
    ["Expecting value"] at [idx] by [raw_decode], which is what is returned
    here. *)
Fixpoint scan_once (limit budget depth : nat) (s : list ascii) (i : nat) {struct budget}
  : scan (json * cursor) :=
  match budget with
  | O => Exhausted
  | S budget' =>
      match s with
      | [] => Err "Expecting value" i
      | c :: s' =>
          if (code c =? 34)%N then
            let* (text, cur) := scanstring i [] s' (S i) in Ok (JStr text, cur)
          else if (code c =? 123)%N then
            match depth with
            | O => TooDeep "object"
            | S depth' =>
                let (s1, i1) := skip_ws s' (S i) in
                match s1 with
                | c1 :: s2 =>
                    if (code c1 =? 125)%N then Ok (JObj [], (s2, S i1))
                    else object_members limit budget' depth' [] s1 i1
                | [] => object_members limit budget' depth' [] s1 i1
                end
            end
          else if (code c =? 91)%N then
            match depth with
            | O => TooDeep "array"
            | S depth' =>
                let (s1, i1) := skip_ws s' (S i) in
                match s1 with
                | c1 :: s2 =>
                    if (code c1 =? 93)%N then Ok (JArr [], (s2, S i1))
                    else array_items limit budget' depth' [] s1 i1
                | [] => array_items limit budget' depth' [] s1 i1
                end
            end
          else
            match starts_with "null" s, starts_with "true" s, starts_with "false" s with
            | Some rest, _, _ => Ok (JNull, (rest, i + 4))
            | _, Some rest, _ => Ok (JBool true, (rest, i + 4))
            | _, _, Some rest => Ok (JBool false, (rest, i + 5))
            | None, None, None =>
                match starts_with "NaN" s, starts_with "Infinity" s,
                      starts_with "-Infinity" s with
                | Some rest, _, _ => Ok (JFloat "NaN", (rest, i + 3))
                | _, Some rest, _ => Ok (JFloat "Infinity", (rest, i + 8))
                | _, _, Some rest => Ok (JFloat "-Infinity", (rest, i + 9))
                | None, None, None =>
                    match match_number limit s i with
                    | Some found => found
                    | None => Err "Expecting value" i
                    end
                end
            end
      end
  end

(** One turn of the loop of [_parse_object_unicode]: [s] starts where a
    key is expected. *)
with object_members (limit budget depth : nat) (pairs : list (list N * json))
       (s : list ascii) (i : nat) {struct budget} : scan (json * cursor) :=
  match budget with
  | O => Exhausted
  | S budget' =>
      match s with
      | q :: s0 =>
          if (code q =? 34)%N then
            let* (key, (s1, i1)) := scanstring i [] s0 (S i) in
            let (s2, i2) := skip_ws s1 i1 in
            match s2 with
            | colon :: s3 =>
                if (code colon =? 58)%N then
                  let (s4, i4) := skip_ws s3 (S i2) in
                  let* (value, (s5, i5)) := scan_once limit budget' depth s4 i4 in
                  let pairs' := (pairs ++ [(key, value)])%list in
                  let (s6, i6) := skip_ws s5 i5 in
                  match s6 with
                  | c :: s7 =>
                      if (code c =? 125)%N then Ok (JObj (dict_of pairs'), (s7, S i6))
                      else if (code c =? 44)%N then
                        let (s8, i8) := skip_ws s7 (S i6) in
                        object_members limit budget' depth pairs' s8 i8
                      else Err "Expecting ',' delimiter" i6
                  | [] => Err "Expecting ',' delimiter" i6
                  end
                else Err "Expecting ':' delimiter" i2
            | [] => Err "Expecting ':' delimiter" i2
            end
          else Err expecting_name i
      | [] => Err expecting_name i
      end
  end

(** One turn of the loop of [_parse_array_unicode]: [s] starts where a
    value is expected. *)
with array_items (limit budget depth : nat) (values : list json)
       (s : list ascii) (i : nat) {struct budget} : scan (json * cursor) :=
  match budget with
  | O => Exhausted
  | S budget' =>
      let* (value, (s1, i1)) := scan_once limit budget' depth s i in
      let values' := (values ++ [value])%list in
      let (s2, i2) := skip_ws s1 i1 in
      match s2 with
      | c :: s3 =>
          if (code c =? 93)%N then Ok (JArr values', (s3, S i2))
          else if (code c =? 44)%N then
            let (s4, i4) := skip_ws s3 (S i2) in
            array_items limit budget' depth values' s4 i4
          else Err "Expecting ',' delimiter" i2
      | [] => Err "Expecting ',' delimiter" i2
      end
  end.

(** [JSONDecoder.decode]: one value between optional whitespace, and
    nothing after it. *)
Definition decode (py : interpreter) (budget : nat) (text : string) : scan json :=
  let (s0, i0) := skip_ws (list_ascii_of_string text) 0 in
  let* (value, (s1, i1)) :=
    scan_once (int_max_str_digits py) budget (recursion_room py) s0 i0 in
  let (s2, i2) := skip_ws s1 i1 in
  match s2 with
  | [] => Ok value
  | _ :: _ => Err "Extra data" i2
  end.

Definition recursion_error (container : string) : exception :=
  {| exc_type := "RecursionError";
     exc_text := "maximum recursion depth exceeded while decoding a JSON "
                   ++ container ++ " from a unicode string";
     is_Exception := true |}.

Definition digits_error (limit digits : nat) : exception :=
  {| exc_type := "ValueError";
     exc_text := "Exceeds the limit (" ++ pretty limit
                   ++ " digits) for integer string conversion: value has "
                   ++ pretty digits
                   ++ " digits; use sys.set_int_max_str_digits() to increase the limit";
     is_Exception := true |}.

(** How [json.loads(text)] ends: with the decoded value, with a
    [JSONDecodeError], or with another exception. *)
Inductive loaded : Type :=
| Decoded (value : json)
| DecodeError (exc : JSONDecodeError)
| OtherError (exc : exception).

(** [json.loads(text)].  The budget is more than the nesting and the number
    of items of any text of that length, so that its end is never met. *)
Definition loads (py : interpreter) (text : string) : loaded :=
  match decode py (2 * String.length text + 2) text with
  | Ok value => Decoded value
  | Err message at_pos => DecodeError {| msg := message; doc := text; pos := at_pos |}
  | TooDeep container => OtherError (recursion_error container)
  | TooLong digits => OtherError (digits_error (int_max_str_digits py) digits)
  | Exhausted => DecodeError {| msg := "Expecting value"; doc := text; pos := 0 |}
  end.

(** What a scanning step may do on [s]: on success leave a shorter text;
    run out of budget only when the budget is at most [bound]; refuse to
    nest only when the text is longer than [depth]; refuse an integer only
    when the text holds more digits than the limit. *)
Definition within {A} (limit budget bound depth : nat) (s : list ascii)
           (r : scan (A * cursor)) : Prop :=
  match r with
  | Ok (_, (s', _)) => (length s' < length s)%nat
  | Err _ _ => True
  | TooDeep _ => (depth < length s)%nat
  | TooLong digits =>
      (640 < digits)%nat /\ (0 < limit)%nat /\ (limit < digits)%nat
      /\ (digits <= length s)%nat
  | Exhausted => (budget <= bound)%nat
  end.

End Json.

(* ===================================================================== *)
(** ** 1. MCPToolRegistry *)
(* ===================================================================== *)

(** The started client of a server: a handle on its live session. *)
Definition client : Type := nat.

(** One entry of the registry (the dict built in [register]). *)
Record entry : Type := {
  name : string;
  description : string;
  input_schema : json;
  server_name : string;
  started_client : client
}.

(** [tool_spec] of an [MCPAgentTool]: a dict in which both keys read by
    [register] may be missing. *)
Record ToolSpec : Type := {
  spec_description : option string;
  spec_inputSchema : option (list (list N * json))
}.

Record MCPAgentTool : Type := {
  tool_name : string;
  tool_spec : ToolSpec
}.

(** [self._tools] is the list in registration order, [self._index] the dict
    of exact lookups. *)
Record MCPToolRegistry : Type := {
  _tools : list entry;
  _index : gmap string entry
}.

Module Registry.

(** [MCPToolRegistry()] *)
Definition init : MCPToolRegistry := {| _tools := []; _index := ∅ |}.

(** [d.get("json", d)] on the raw schema *)
Fixpoint schema_get (key : list N) (d : list (list N * json)) : option json :=
  match d with
  | [] => None
  | (k, v) :: d' => if decide (k = key) then Some v else schema_get key d'
  end.

(** The body of the loop of [register], up to the two stores. *)
Definition make_entry (server_name : string) (started_client : client)
           (mcp_tool : MCPAgentTool) : entry :=
  let name := tool_name mcp_tool in
  let tool_spec := tool_spec mcp_tool in
  let description := default "" (spec_description tool_spec) in
  let raw_schema := default [] (spec_inputSchema tool_spec) in
  let input_schema :=
    default (JObj raw_schema) (schema_get (Json.codepoints "json") raw_schema) in
  {| name := PyStr.lower server_name ++ "_" ++ name;
     description := description;
     input_schema := input_schema;
     server_name := server_name;
     started_client := started_client |}.

(** The loop [for mcp_tool in mcp_tools] with the registry and [count] as
    its state. *)
Fixpoint register_loop (server_name : string) (started_client : client)
         (mcp_tools : list MCPAgentTool) (self : MCPToolRegistry) (count : nat)
  : MCPToolRegistry * nat :=
  match mcp_tools with
  | [] => (self, count)
  | mcp_tool :: rest =>
      let entry := make_entry server_name started_client mcp_tool in
      register_loop server_name started_client rest
        {| _tools := _tools self ++ [entry];
           _index := <[tool_name mcp_tool := entry]> (_index self) |}
        (S count)
  end.

(** [self.register(server_name, started_client, mcp_tools)]: the registry
    after the call and the count returned. *)
Definition register (self : MCPToolRegistry) (server_name : string)
           (started_client : client) (mcp_tools : list MCPAgentTool)
  : MCPToolRegistry * nat :=
  register_loop server_name started_client mcp_tools self 0.

(** [set(re.findall(r"\w+", text.lower()))] *)
Definition tokens (text : string) : gset string :=
  list_to_set (PyStr.findall_words (PyStr.lower text)).

(** [len(found) / len(words)] for the entry, [words] not empty. *)
Definition score (words : gset string) (e : entry) : Q :=
  let text := name e ++ " " ++ description e in
  let found := words ∩ tokens text in
  Z.of_nat (size found) # Pos.of_nat (size words).

(** The loop that fills [scored]. *)
Fixpoint scored_loop (words : gset string) (tools : list entry)
         (scored : list (Q * entry)) : list (Q * entry) :=
  match tools with
  | [] => scored
  | e :: rest =>
      let sc := score words e in
      scored_loop words rest
        (if Qlt_le_dec 0 sc then scored ++ [(sc, e)] else scored)
  end.

(** [score > 0], and [score == q], as tests on an entry. *)
Definition positive (words : gset string) (e : entry) : bool :=
  if Qlt_le_dec 0 (score words e) then true else false.

Definition scores (words : gset string) (q : Q) (e : entry) : bool :=
  Qeq_bool (score words e) q.

(** [x] goes before the first element whose score is not above its own. *)
Fixpoint insert_reverse (x : Q * entry) (l : list (Q * entry)) : list (Q * entry) :=
  match l with
  | [] => [x]
  | y :: l' => if Qle_bool (fst y) (fst x) then x :: l else y :: insert_reverse x l'
  end.

(** [scored.sort(key=lambda x: x[0], reverse=True)]: Python's sort is
    stable, also when reversed. *)
Definition sort_reverse (scored : list (Q * entry)) : list (Q * entry) :=
  foldr insert_reverse [] scored.

(** The order of a list sorted with [reverse=True]: no element is below
    one that follows it. *)
Definition above (a b : Q * entry) : Prop := (fst b <= fst a)%Q.

(** What the loop leaves in [scored] when it starts empty; in such a
    list every pair carries the score of its entry. *)
Definition scored_of (words : gset string) (tools : list entry) : list (Q * entry) :=
  map (fun e => (score words e, e)) (List.filter (positive words) tools).

Definition keyed (words : gset string) (l : list (Q * entry)) : Prop :=
  Forall (fun x => fst x = score words (snd x)) l.

(** [self.search(query, top_k)] *)
Definition search (self : MCPToolRegistry) (query : string) (top_k : Z) : list entry :=
  let words := tokens query in
  if decide (words = ∅) then PyStr.slice_to top_k (_tools self)
  else
    let scored := sort_reverse (scored_loop words (_tools self) []) in
    map snd (PyStr.slice_to top_k scored).

(** [self.get(name)] *)
Definition get (self : MCPToolRegistry) (name : string) : option entry :=
  _index self !! name.

(** [self.total] *)
Definition total (self : MCPToolRegistry) : nat := length (_tools self).

(** [self.all_tools] *)
Definition all_tools (self : MCPToolRegistry) : list entry := _tools self.

Fixpoint servers_loop (tools : list entry) (seen : list string) : list string :=
  match tools with
  | [] => seen
  | e :: rest =>
      servers_loop rest
        (if bool_decide (server_name e ∈ seen) then seen else seen ++ [server_name e])
  end.

(** [self.servers()] *)
Definition servers (self : MCPToolRegistry) : list string :=
  servers_loop (_tools self) [].

(** A registration call, and the registry a sequence of calls builds. *)
Record registration : Type := {
  reg_server : string;
  reg_client : client;
  reg_tools : list MCPAgentTool
}.

Definition register_all (self : MCPToolRegistry) (calls : list registration)
  : MCPToolRegistry :=
  fold_left (fun r c => fst (register r (reg_server c) (reg_client c) (reg_tools c)))
            calls self.

(** The raw names the backends reported, in registration order. *)
Definition raw_names (calls : list registration) : list string :=
  flat_map (fun c => map tool_name (reg_tools c)) calls.

(** The entries a sequence of registrations appends, in order. *)
Definition entries_of (calls : list registration) : list entry :=
  flat_map (fun c => map (make_entry (reg_server c) (reg_client c)) (reg_tools c)) calls.

(** The line of one tool in [summary_for_prompt]; [bullet] is the bullet
    character of the source (U+2022, beyond the code points of [string]). *)
Definition tool_line (bullet : string) (e : entry) : string :=
  "  " ++ bullet ++ " " ++ name e ++ ": " ++ PyStr.prefix 100 (description e).

(** [by_server.setdefault(key, []).append(line)] on a dict kept in insertion
    order. *)
Fixpoint setdefault_append (key line : string) (by_server : list (string * list string))
  : list (string * list string) :=
  match by_server with
  | [] => [(key, [line])]
  | (k, tool_lines) :: rest =>
      if String.eqb k key then (k, (tool_lines ++ [line])%list) :: rest
      else (k, tool_lines) :: setdefault_append key line rest
  end.

(** The first loop of [summary_for_prompt]. *)
Fixpoint by_server_loop (bullet : string) (tools : list entry)
         (by_server : list (string * list string)) : list (string * list string) :=
  match tools with
  | [] => by_server
  | e :: rest =>
      by_server_loop bullet rest
        (setdefault_append (server_name e) (tool_line bullet e) by_server)
  end.

(** The second loop: a header, the tool lines and an empty line for each
    server. *)
Fixpoint summary_loop (groups : list (string * list string)) (lines : list string)
  : list string :=
  match groups with
  | [] => lines
  | (server, tool_lines) :: rest =>
      let header := "### " ++ server ++ "  (" ++ pretty (length tool_lines) ++ " tools)" in
      summary_loop rest (lines ++ [header] ++ tool_lines ++ [""])%list
  end.

(** [self.summary_for_prompt()] *)
Definition summary_for_prompt (bullet : string) (self : MCPToolRegistry) : string :=
  let by_server := by_server_loop bullet (_tools self) [] in
  let lines := summary_loop by_server ["## Connected MCP Servers" ++ PyStr.nl] in
  PyStr.join PyStr.nl
    (lines ++ ["Use `find_tool` to discover exact tool names and input schemas.";
               "Use `call_tool` to execute a tool once you know its exact name."])%list.

End Registry.

(* ===================================================================== *)
(** ** 2. Tool factory: [find_tool] and [call_tool] *)
(* ===================================================================== *)

(** What a call leaves behind: the accesses to the registry and the calls
    on a session, in order. *)
Inductive event : Type :=
| RegistryGet (name : string)
| RegistrySearch (query : string) (top_k : Z)
| CallToolSync (session : client) (tool_use_id name : string) (arguments : json).

(** [call_tool_sync] of every started client: the result, or the exception
    raised, of whatever class. *)
Definition backend : Type := client -> string -> string -> json -> exception + pyvalue.

(** The [arguments] parameter: declared [str]; the code also takes a dict.
    [ArgOther] is a value of any other type that has no [strip] method (a
    number, a bool, a list, ...): the code meets its truth value, and the
    error names its type.  [ArgNone] is [None]. *)
Inductive raw_arguments : Type :=
| ArgDict (d : list (list N * json))
| ArgStr (s : string)
| ArgNone
| ArgOther (type_name : string) (truthy : bool).

(** How a tool ends: with the returned text, or with an exception that
    leaves the function. *)
Inductive outcome : Type :=
| Returned (text : string)
| Raised (exc_type_name : string).

Module Tools.
Import PyStr.

Definition empty_result : string := "(Tool returned an empty result)".

Definition empty_query_message : string := "ERROR: query cannot be empty.".

Definition empty_tool_name_message : string :=
  "ERROR: tool_name is required. Use find_tool to discover tool names.".

Definition no_tools_message (query servers : string) : string :=
  "No tools found matching '" ++ query ++ "'." ++ nl
    ++ "Available servers: " ++ servers ++ nl
    ++ "Try a broader search term.".

(** The block of one result: its index, from 1, then the entry. *)
Definition render_entry (dumps : json -> string) (i : nat) (e : entry) : string :=
  "[" ++ pretty i ++ "] " ++ name e ++ "  (server: " ++ server_name e ++ ")" ++ nl
    ++ "    Description : " ++ description e ++ nl
    ++ "    Input schema:" ++ nl ++ dumps (input_schema e) ++ nl.

Fixpoint render_loop (dumps : json -> string) (i : nat) (results : list entry)
         (lines : list string) : list string :=
  match results with
  | [] => lines
  | e :: rest => render_loop dumps (S i) rest (lines ++ [render_entry dumps i e])
  end.

(** [find_tool(query, top_k)] over [registry]; [dumps] is
    [json.dumps(_, indent=2)]. *)
Definition find_tool (dumps : json -> string) (registry : MCPToolRegistry)
           (query : string) (top_k : Z) : string :=
  let query := strip query in
  if String.eqb query "" then empty_query_message
  else
    let results := Registry.search registry query top_k in
    match results with
    | [] =>
        let servers := join ", " (Registry.servers registry) in
        no_tools_message query (if String.eqb servers "" then "none" else servers)
    | _ =>
        let lines :=
          ["Found " ++ pretty (length results) ++ " tool(s) matching '" ++ query ++ "':" ++ nl] in
        join nl (render_loop dumps 1 results lines)
    end.

Definition invalid_arguments_message (args_str : string) (exc : Json.JSONDecodeError)
  : string :=
  "ERROR: arguments must be a valid JSON string." ++ nl
    ++ "Received: " ++ repr args_str ++ nl
    ++ "JSON error: " ++ Json.error_str exc ++ nl
    ++ "Example: '{" ++ dq ++ "issue_key" ++ dq ++ ": " ++ dq ++ "RBTES-121" ++ dq ++ "}'".

Definition not_found_message (tool_name : string) (similar : list entry) : string :=
  let suggestions :=
    match similar with
    | [] => "none found"
    | _ => join ", " (map name similar)
    end in
  "ERROR: Tool '" ++ tool_name ++ "' not found in registry." ++ nl
    ++ "Did you mean: " ++ suggestions ++ "?" ++ nl
    ++ "Use find_tool to search for the correct tool name.".

Definition transport_error_message (tool_name : string) (exc : exception) : string :=
  "ERROR calling '" ++ tool_name ++ "': " ++ exc_type exc ++ ": " ++ exc_text exc ++ nl
    ++ "The MCP session for this tool may have closed. "
    ++ "Try restarting the agent.".

Definition tool_error_message (tool_name output : string) : string :=
  "Tool '" ++ tool_name ++ "' returned an error:" ++ nl ++ output.

(** [AttributeError] of [value.strip] on a value without that method. *)
Definition no_strip (type_name : string) : exception :=
  {| exc_type := "AttributeError";
     exc_text := "'" ++ type_name ++ "' object has no attribute 'strip'";
     is_Exception := true |}.

(** How the first step of [call_tool] ends: with the argument map; with
    the text that [json.loads] rejected and its [JSONDecodeError], which
    the code catches; or with an exception that nothing catches. *)
Inductive parsed : Type :=
| Parsed (args : json)
| Invalid (args_str : string) (exc : Json.JSONDecodeError)
| Uncaught (exc : exception).

(** The first step of [call_tool] on its [arguments]: the dict itself, or
    the text that goes to [json.loads] and what it gives.  In
    [(arguments or "{}").strip()] a truthy value is kept, and [strip] fails
    on one that is no string. *)
Definition parse_arguments (py : interpreter) (arguments : raw_arguments) : parsed :=
  match arguments with
  | ArgDict d => Parsed (JObj d)
  | ArgOther type_name true => Uncaught (no_strip type_name)
  | ArgStr _ | ArgNone | ArgOther _ false =>
      let args_str :=
        strip (match arguments with
               | ArgStr s => if String.eqb s "" then "{}" else s
               | _ => "{}"
               end) in
      match Json.loads py args_str with
      | Json.Decoded args => Parsed args
      | Json.DecodeError exc => Invalid args_str exc
      | Json.OtherError exc => Uncaught exc
      end
  end.

(** The [text] of one content block: [block.get("text", "")] for a dict,
    [getattr(block, "text", "")] otherwise. *)
Definition block_text (block : pyvalue) : pyvalue :=
  match block with
  | PyDict d => Py.get "text" (PyStr "") d
  | _ => Py.getattr_text block
  end.

(** The loop over [content_blocks] that fills [text_parts]. *)
Fixpoint text_parts_loop (content_blocks : list pyvalue) (text_parts : list string)
  : list string :=
  match content_blocks with
  | [] => text_parts
  | block :: rest =>
      let text := block_text block in
      text_parts_loop rest
        (if Py.truthy text then text_parts ++ [Py.str text] else text_parts)
  end.

(** The last part of [call_tool]: the text drawn from the result. *)
Definition extract_text (tool_name : string) (result : pyvalue) : outcome :=
  match result with
  | PyDict d =>
      let status := Py.get "status" (PyStr "success") d in
      let content_blocks := Py.get "content" (PyList []) d in
      match Py.iterate content_blocks with
      | None => Raised "TypeError"
      | Some blocks =>
          let text_parts := text_parts_loop blocks [] in
          let output :=
            match text_parts with
            | [] => Py.str result
            | _ => join nl text_parts
            end in
          if Py.eq_str status "error" then Returned (tool_error_message tool_name output)
          else Returned (if String.eqb output "" then empty_result else output)
      end
  | _ => Returned (if Py.truthy result then Py.str result else empty_result)
  end.

(** [call_tool(tool_name, arguments)] over [registry], run by the
    interpreter [py]: the outcome and the trace.  [world] answers the
    session call and [uuid_hex] is the value of [uuid.uuid4().hex] drawn by
    this call. *)
Definition call_tool (py : interpreter) (registry : MCPToolRegistry) (world : backend)
           (uuid_hex : string) (tool_name : string) (arguments : raw_arguments)
  : outcome * list event :=
  let tool_name := strip tool_name in
  if String.eqb tool_name "" then (Returned empty_tool_name_message, [])
  else
    match parse_arguments py arguments with
    | Invalid args_str exc => (Returned (invalid_arguments_message args_str exc), [])
    | Uncaught exc => (Raised (exc_type exc), [])
    | Parsed args =>
        match Registry.get registry tool_name with
        | None =>
            let similar := Registry.search registry tool_name 3 in
            (Returned (not_found_message tool_name similar),
             [RegistryGet tool_name; RegistrySearch tool_name 3])
        | Some entry =>
            let client := started_client entry in
            let tool_use_id := "optimizer-" ++ prefix 8 uuid_hex in
            let trace := [RegistryGet tool_name;
                          CallToolSync client tool_use_id tool_name args] in
            match world client tool_use_id tool_name args with
            | inl exc =>
                if is_Exception exc
                then (Returned (transport_error_message tool_name exc), trace)
                else (Raised (exc_type exc), trace)
            | inr result => (extract_text tool_name result, trace)
            end
        end
    end.


(** The number of calls on a session that a trace records. *)
Definition is_session_call (e : event) : bool :=
  match e with CallToolSync _ _ _ _ => true | _ => false end.

Definition session_calls (trace : list event) : nat :=
  length (List.filter is_session_call trace).

End Tools.

(* ===================================================================== *)
(** ** The texts of a result, in the words of the specification *)
(* ===================================================================== *)

(** These definitions follow the specification, not the code: they are
    what the output of the code is compared with. *)
Module Spec.

(** "Blocks may be maps or opaque objects exposing a text attribute": the
    text that a content block carries, when it is not empty. *)
Inductive block_has_text : pyvalue -> string -> Prop :=
| map_with_text (d : list (string * pyvalue)) (s : string) :
    Py.dict_get "text" d = Some (PyStr s) -> s <> "" ->
    block_has_text (PyDict d) s
| object_with_text (s shown printed : string) :
    s <> "" ->
    block_has_text (PyObj (Some (PyStr s)) shown printed) s.

(** A block that carries no text, or an empty one. *)
Definition block_has_no_text (block : pyvalue) : Prop :=
  match block with
  | PyDict d =>
      Py.dict_get "text" d = None \/ Py.dict_get "text" d = Some (PyStr "")
  | PyObj text _ _ => text = None \/ text = Some (PyStr "")
  | _ => True
  end.

(** The texts of the blocks, in order, the blocks without text left out. *)
Inductive content_texts : list pyvalue -> list string -> Prop :=
| no_blocks : content_texts [] []
| block_with_text (block : pyvalue) (s : string) (blocks : list pyvalue)
                  (texts : list string) :
    block_has_text block s -> content_texts blocks texts ->
    content_texts (block :: blocks) (s :: texts)
| block_without_text (block : pyvalue) (blocks : list pyvalue) (texts : list string) :
    block_has_no_text block -> content_texts blocks texts ->
    content_texts (block :: blocks) texts.

(** "Concatenate with newline separators": a line feed between two
    consecutive texts, none before the first nor after the last. *)
Fixpoint lines (texts : list string) : string :=
  match texts with
  | [] => ""
  | t :: rest =>
      match rest with
      | [] => t
      | _ :: _ => t ++ String "010"%char (lines rest)
      end
  end.

End Spec.

(* ===================================================================== *)
(** ** Sample catalogs and backends *)
(* ===================================================================== *)

Module Samples.
Import Registry.

Definition tool (raw_name text : string) : MCPAgentTool :=
  {| tool_name := raw_name;
     tool_spec := {| spec_description := Some text; spec_inputSchema := None |} |}.

Definition jira : registration :=
  {| reg_server := "Jira"; reg_client := 1;
     reg_tools := [tool "list_issues" "list jira issues";
                   tool "get_issue" "Get one issue by key"] |}.

Definition github : registration :=
  {| reg_server := "GitHub"; reg_client := 2;
     reg_tools := [tool "list_issues" "List GitHub issues";
                   tool "list_prs" "list pull requests"] |}.

(** Two backends, four tools, one raw name reported twice. *)
Definition catalog : MCPToolRegistry := register_all init [jira; github].

(** A backend whose first raw name ends with a space and whose second raw
    name is the qualified name of the first without that space. *)
Definition spaced : registration :=
  {| reg_server := "a"; reg_client := 7;
     reg_tools := [tool "b " "first"; tool "a_b" "second"] |}.

Definition spaced_catalog : MCPToolRegistry := register_all init [spaced].

Definition uuid_hex : string := "0123456789abcdef0123456789abcdef".

(** Sessions that answer every call the same way. *)
Definition answers (result : pyvalue) : backend := fun _ _ _ _ => inr result.

Definition fails (exc : exception) : backend := fun _ _ _ _ => inl exc.

Definition ok_result : pyvalue :=
  PyDict [("status", PyStr "success"); ("content", PyList [PyDict [("text", PyStr "ok")]])].

(** The content of a result with four blocks: a map with a text, an object
    with a text attribute, a map with an empty text and a map without
    text. *)
Definition mixed_blocks : list pyvalue :=
  [PyDict [("type", PyStr "text"); ("text", PyStr "ok")];
   PyObj (Some (PyStr "done")) "TextContent" "<TextContent>";
   PyDict [("text", PyStr "")];
   PyDict [("type", PyStr "image")]].

Definition mixed_result : pyvalue :=
  PyDict [("status", PyStr "success"); ("content", PyList mixed_blocks)].


(** The interrupt of the user, which is no [Exception]. *)
Definition interrupted : exception :=
  {| exc_type := "KeyboardInterrupt"; exc_text := ""; is_Exception := false |}.

(** An interpreter left with room for 900 nested calls, and the default
    limit on the digits of an integer. *)
Definition py : interpreter := {| recursion_room := 900; int_max_str_digits := 4300 |}.

(** [n] copies of [s], one after the other. *)
Fixpoint copies (n : nat) (s : string) : string :=
  match n with
  | O => ""
  | S n' => s ++ copies n' s
  end.

End Samples.

Import PyStr Registry Tools.

(* ===================================================================== *)
(** ** Properties of the JSON decoder *)
(* ===================================================================== *)

Section DecoderFacts.
Import Json.

Lemma skip_ws_length (s : list ascii) : forall i, (length (skip_ws s i).1 <= length s)%nat.
Proof.
  induction s as [|c s IH]; intros i; simpl; [lia|].
  destruct (is_ws c); simpl; [|lia]. specialize (IH (S i)). lia.
Qed.

Lemma take_digits_length (s : list ascii) :
  (length (take_digits s).1 + length (take_digits s).2 = length s)%nat.
Proof.
  induction s as [|c s IH]; simpl; [lia|].
  destruct (is_digit c); simpl; [|lia]. destruct (take_digits s). simpl in *. lia.
Qed.

Lemma match_integer_length (s ds rest : list ascii) :
  match_integer s = Some (ds, rest) ->
  (length rest < length s)%nat /\ (length ds + length rest = length s)%nat.
Proof.
  unfold match_integer. intros H.
  destruct s as [|c s']; [done|].
  destruct (code c =? 45)%N.
  - destruct s' as [|c' s'']; [done|]. simpl.
    destruct (code c' =? 48)%N; [injection H as <- <-; simpl; lia|].
    destruct (is_digit c'); [|done].
    pose proof (take_digits_length s'') as Hd. destruct (take_digits s'').
    injection H as <- <-. simpl in *. lia.
  - destruct (code c =? 48)%N; [injection H as <- <-; simpl; lia|].
    destruct (is_digit c); [|done].
    pose proof (take_digits_length s') as Hd. destruct (take_digits s').
    injection H as <- <-. simpl in *. lia.
Qed.

Lemma match_frac_length (s : list ascii) : (length (match_frac s).2 <= length s)%nat.
Proof.
  unfold match_frac. destruct s as [|c s]; [simpl; lia|].
  destruct (code c =? 46)%N; [|simpl; lia].
  pose proof (take_digits_length s) as Hd. destruct (take_digits s) as [[|d ds] rest]; simpl in *; lia.
Qed.

Lemma match_exp_length (s : list ascii) : (length (match_exp s).2 <= length s)%nat.
Proof.
  unfold match_exp. destruct s as [|c s]; [simpl; lia|].
  destruct (_ || _); [|simpl; lia].
  destruct s as [|c' s'].
  - simpl. lia.
  - destruct (_ || _).
    + pose proof (take_digits_length s') as Hd.
      destruct (take_digits s') as [[|d ds] rest]; simpl in *; lia.
    + pose proof (take_digits_length (c' :: s')) as Hd.
      destruct (take_digits (c' :: s')) as [[|d ds] rest]; simpl in *; lia.
Qed.

Lemma int_digits_length (text : list ascii) : (int_digits text <= length text)%nat.
Proof. destruct text as [|c ds]; simpl; [lia|]. destruct (code c =? 45)%N; simpl; lia. Qed.

Lemma exceeds_limit_spec (limit digits : nat) :
  exceeds_limit limit digits = true
  <-> (640 < digits)%nat /\ (0 < limit)%nat /\ (limit < digits)%nat.
Proof.
  unfold exceeds_limit. rewrite !andb_true_iff, !Nat.ltb_lt. tauto.
Qed.

(** A number read leaves a shorter text; [int] refuses it only on more
    digits than the limit, all of them in the text. *)
Lemma match_number_within (limit : nat) (s : list ascii) (i : nat) r :
  match_number limit s i = Some r ->
  forall budget bound depth, within limit budget bound depth s r.
Proof.
  unfold match_number. destruct (match_integer s) as [[ds rest]|] eqn:Hint; [|done].
  apply match_integer_length in Hint as [Hlt Hsum].
  pose proof (match_frac_length rest) as Hf. destruct (match_frac rest) as [frac rest1].
  pose proof (match_exp_length rest1) as He. destruct (match_exp rest1) as [exp rest2].
  pose proof (int_digits_length ds) as Hdigits.
  intros [= <-] budget bound depth.
  destruct frac; [destruct exp|]; try (simpl in *; lia).
  destruct (exceeds_limit limit (int_digits ds)) eqn:Hlimit; simpl in *; [|lia].
  apply exceeds_limit_spec in Hlimit. lia.
Qed.

Lemma starts_with_length (word : string) : forall s rest,
  starts_with word s = Some rest -> (length rest + String.length word = length s)%nat.
Proof.
  induction word as [|w word IH]; intros s rest; simpl.
  - intros [= <-]. lia.
  - destruct s as [|c s]; [done|]. destruct (Ascii.eqb w c); [|done].
    intros H. apply IH in H. simpl. lia.
Qed.

(** [scanstring] ends with a shorter text or a [JSONDecodeError]. *)
Lemma scanstring_cases (n : nat) : forall begin acc s i,
  (length s <= n)%nat ->
  match scanstring begin acc s i with
  | Ok (_, (s', _)) => (length s' < length s)%nat
  | Err _ _ => True
  | _ => False
  end.
Proof.
  induction n as [|n IH]; intros begin acc s i Hlen.
  - destruct s; [exact I|simpl in Hlen; lia].
  - destruct s as [|c s]; [exact I|]. simpl in Hlen. cbn [scanstring].
    repeat match goal with
           | |- match (if ?b then _ else _) with _ => _ end => destruct b
           | |- match (match ?x with _ => _ end) with _ => _ end => destruct x eqn:?
           | |- match (let single := _ in _) with _ => _ end => cbv zeta
           | |- match Err _ _ with _ => _ end => exact I
           | |- match Ok _ with _ => _ end => simpl; lia
           | |- match scanstring ?b ?a ?t ?j with _ => _ end =>
               let F := fresh in
               assert (F : (length t <= n)%nat) by (subst; simpl in *; lia);
               specialize (IH b a t j F);
               destruct (scanstring b a t j) as [[? [? ?]]| | | |];
               subst; simpl in *; try exact I; try lia; try done
           end;
    try exact I; simpl; lia.
Qed.

Lemma scanstring_not_exhausted begin acc s i : scanstring begin acc s i <> Exhausted.
Proof.
  pose proof (scanstring_cases (length s) begin acc s i (Nat.le_refl _)) as H.
  by destruct (scanstring begin acc s i).
Qed.

Lemma scanstring_not_too_deep begin acc s i c : scanstring begin acc s i <> TooDeep c.
Proof.
  pose proof (scanstring_cases (length s) begin acc s i (Nat.le_refl _)) as H.
  by destruct (scanstring begin acc s i).
Qed.

Lemma scanstring_not_too_long begin acc s i n : scanstring begin acc s i <> TooLong n.
Proof.
  pose proof (scanstring_cases (length s) begin acc s i (Nat.le_refl _)) as H.
  by destruct (scanstring begin acc s i).
Qed.

Lemma scanstring_shorter begin acc s i r s' i' :
  scanstring begin acc s i = Ok (r, (s', i')) -> (length s' < length s)%nat.
Proof.
  pose proof (scanstring_cases (length s) begin acc s i (Nat.le_refl _)) as H.
  intros Heq. by rewrite Heq in H.
Qed.

Lemma skip_ws_shorter (s s' : list ascii) (i i' : nat) :
  skip_ws s i = (s', i') -> (length s' <= length s)%nat.
Proof. intros H. pose proof (skip_ws_length s i) as Hle. by rewrite H in Hle. Qed.

(** Case analysis on the scrutinee at the head of the scanned expression,
    keeping its equation; then the lengths the equations imply. *)
Ltac scan_step :=
  match goal with
  | |- within _ _ _ _ _ (if ?x then _ else _) => destruct x
  | |- within _ _ _ _ _ (match ?x with _ => _ end) => destruct x eqn:?
  | |- within _ _ _ _ _ (bind _ _) => unfold bind
  | |- within _ _ _ _ _ (scan_once ?l ?b ?d ?t ?j) => destruct (scan_once l b d t j) eqn:?
  | |- within _ _ _ _ _ (object_members ?l ?b ?d ?p ?t ?j) =>
      destruct (object_members l b d p t j) eqn:?
  | |- within _ _ _ _ _ (array_items ?l ?b ?d ?p ?t ?j) =>
      destruct (array_items l b d p t j) eqn:?
  end.

Ltac scan_facts IHvalue IHobject IHarray :=
  subst;
  repeat match goal with
         | p : (_ * _)%type |- _ => destruct p
         | c : cursor |- _ => destruct c
         end;
  repeat match goal with
         | H : scanstring _ _ _ _ = Exhausted |- _ =>
             exfalso; exact (scanstring_not_exhausted _ _ _ _ H)
         | H : scanstring _ _ _ _ = TooDeep _ |- _ =>
             exfalso; exact (scanstring_not_too_deep _ _ _ _ _ H)
         | H : scanstring _ _ _ _ = TooLong _ |- _ =>
             exfalso; exact (scanstring_not_too_long _ _ _ _ _ H)
         | H : skip_ws _ _ = (_, _) |- _ => apply skip_ws_shorter in H
         | H : scanstring _ _ _ _ = Ok _ |- _ => apply scanstring_shorter in H
         | H : match_number _ ?t _ = Some ?r |- within _ ?b ?n ?d ?t ?r =>
             exact (match_number_within _ _ _ _ H b n d)
         | H : starts_with _ _ = Some _ |- _ => apply starts_with_length in H
         | H : scan_once _ _ ?d ?t ?j = _ |- _ =>
             let F := fresh in
             pose proof (IHvalue d t j) as F; rewrite H in F; clear H
         | H : object_members _ _ ?d ?p ?t ?j = _ |- _ =>
             let F := fresh in
             pose proof (IHobject d p t j) as F; rewrite H in F; clear H
         | H : array_items _ _ ?d ?p ?t ?j = _ |- _ =>
             let F := fresh in
             pose proof (IHarray d p t j) as F; rewrite H in F; clear H
         end;
  unfold within in *; simpl in *; try exact I; try lia.

Lemma scan_budget (limit budget : nat) :
  (forall depth s i,
      within limit budget (2 * length s) depth s (scan_once limit budget depth s i))
  /\ (forall depth pairs s i,
         within limit budget (2 * length s + 1) depth s
                (object_members limit budget depth pairs s i))
  /\ (forall depth values s i,
         within limit budget (2 * length s + 1) depth s
                (array_items limit budget depth values s i)).
Proof.
  induction budget as [|b (IHvalue & IHobject & IHarray)].
  { repeat split; intros; simpl; lia. }
  repeat split.
  - intros depth s i. cbn [scan_once].
    repeat scan_step; scan_facts IHvalue IHobject IHarray.
  - intros depth pairs s i. cbn [object_members].
    repeat scan_step; scan_facts IHvalue IHobject IHarray.
  - intros depth values s i. cbn [array_items].
    repeat scan_step; scan_facts IHvalue IHobject IHarray.
Qed.

Lemma length_list_ascii (text : string) :
  length (list_ascii_of_string text) = String.length text.
Proof. induction text as [|c text IH]; simpl; [done|]. by rewrite IH. Qed.

(** What [decode] can end with, on the budget of [loads]: never the end of
    the budget; a [RecursionError] only on a text longer than the room for
    nested calls; a [ValueError] only on a text that holds more digits than
    the limit, and more than 640. *)
Lemma decode_cases (py : interpreter) (text : string) :
  match decode py (2 * String.length text + 2) text with
  | Ok _ | Err _ _ => True
  | TooDeep _ => (recursion_room py < String.length text)%nat
  | TooLong digits =>
      (640 < digits)%nat /\ (0 < int_max_str_digits py)%nat
      /\ (int_max_str_digits py < digits)%nat /\ (digits <= String.length text)%nat
  | Exhausted => False
  end.
Proof.
  unfold decode.
  pose proof (skip_ws_length (list_ascii_of_string text) 0) as Hws.
  destruct (skip_ws (list_ascii_of_string text) 0) as [s0 i0].
  rewrite length_list_ascii in Hws. simpl in Hws.
  pose proof (proj1 (scan_budget (int_max_str_digits py) (2 * String.length text + 2))
                (recursion_room py) s0 i0) as Hval.
  destruct (scan_once _ _ _ s0 i0) as [[value [s1 i1]]| | | |]; simpl in *.
  - by destruct (skip_ws s1 i1) as [[|c s2] i2].
  - exact I.
  - lia.
  - lia.
  - lia.
Qed.

Lemma decode_not_exhausted (py : interpreter) (text : string) :
  decode py (2 * String.length text + 2) text <> Exhausted.
Proof. pose proof (decode_cases py text) as H. by destruct (decode py _ text). Qed.

(** [json.loads] ends with something else than a value or a
    [JSONDecodeError] only at a limit of the interpreter. *)
Lemma loads_other_error (py : interpreter) (text : string) (exc : exception) :
  loads py text = OtherError exc ->
  (exists container,
      exc = recursion_error container
      /\ (recursion_room py < String.length text)%nat)
  \/ (exists digits,
         exc = digits_error (int_max_str_digits py) digits
         /\ (640 < digits)%nat /\ (0 < int_max_str_digits py)%nat
         /\ (int_max_str_digits py < digits)%nat /\ (digits <= String.length text)%nat).
Proof.
  unfold loads. pose proof (decode_cases py text) as H.
  destruct (decode py _ text) as [value|message at_pos|container|digits|]; try discriminate.
  - intros [= <-]. left. by exists container.
  - intros [= <-]. right. by exists digits.
Qed.

End DecoderFacts.

(* ===================================================================== *)
(** ** Properties of registration *)
(* ===================================================================== *)


Section RegisterFacts.
Context (server : string) (session : client).

Lemma register_loop_tools mcp_tools : forall self count,
  _tools (register_loop server session mcp_tools self count).1
  = (_tools self ++ map (make_entry server session) mcp_tools)%list.
Proof.
  induction mcp_tools as [|t rest IH]; intros self count; simpl.
  - by rewrite app_nil_r.
  - rewrite IH. simpl. by rewrite <- app_assoc.
Qed.

Lemma register_loop_count mcp_tools : forall self count,
  (register_loop server session mcp_tools self count).2 = (count + length mcp_tools)%nat.
Proof.
  induction mcp_tools as [|t rest IH]; intros self count; simpl.
  - lia.
  - rewrite IH. lia.
Qed.

Lemma register_loop_index_other mcp_tools n : forall self count,
  n ∉ map tool_name mcp_tools ->
  _index (register_loop server session mcp_tools self count).1 !! n = _index self !! n.
Proof.
  induction mcp_tools as [|t rest IH]; intros self count Hn; simpl; [done|].
  simpl in Hn. apply not_elem_of_cons in Hn as [Hne Hn].
  rewrite IH by done. simpl. by rewrite lookup_insert_ne.
Qed.

Lemma register_loop_index_last pre t post : forall self count,
  tool_name t ∉ map tool_name post ->
  _index (register_loop server session (pre ++ t :: post) self count).1 !! tool_name t
  = Some (make_entry server session t).
Proof.
  induction pre as [|p pre IH]; intros self count Hn; simpl.
  - rewrite register_loop_index_other by done. simpl. by rewrite lookup_insert_eq.
  - by apply IH.
Qed.
End RegisterFacts.

(** The last tool of a batch that reports a given raw name. *)
Lemma last_with_name (n : string) (mcp_tools : list MCPAgentTool) :
  n ∈ map tool_name mcp_tools ->
  exists pre t post,
    mcp_tools = (pre ++ t :: post)%list /\ tool_name t = n
    /\ n ∉ map tool_name post.
Proof.
  induction mcp_tools as [|u rest IH]; simpl; intros Hin; [by apply elem_of_nil in Hin|].
  destruct (decide (n ∈ map tool_name rest)) as [Hlater|Hlast].
  - destruct (IH Hlater) as (pre & t & post & -> & ? & ?).
    by exists (u :: pre), t, post.
  - apply elem_of_cons in Hin as [->|Hin]; [|done].
    by exists [], u, rest.
Qed.

Lemma register_loop_dom (server : string) (session : client)
      (mcp_tools : list MCPAgentTool) : forall self count,
  dom (_index (register_loop server session mcp_tools self count).1)
  = dom (_index self) ∪ list_to_set (map tool_name mcp_tools).
Proof.
  induction mcp_tools as [|t rest IH]; intros self count; simpl.
  - set_solver.
  - rewrite IH. simpl. rewrite dom_insert_L. set_solver.
Qed.

Lemma register_all_tools (calls : list registration) : forall self,
  _tools (register_all self calls) = (_tools self ++ entries_of calls)%list.
Proof.
  induction calls as [|c calls IH]; intros self; simpl.
  - by rewrite app_nil_r.
  - unfold register_all in *. simpl. rewrite IH. unfold register.
    rewrite register_loop_tools. by rewrite <- app_assoc.
Qed.

Lemma register_all_dom (calls : list registration) : forall self,
  dom (_index (register_all self calls))
  = dom (_index self) ∪ list_to_set (raw_names calls).
Proof.
  induction calls as [|c calls IH]; intros self; simpl.
  - set_solver.
  - unfold register_all in *. simpl. rewrite IH. unfold register.
    rewrite register_loop_dom. rewrite list_to_set_app_L. set_solver.
Qed.

Lemma get_unregistered (calls : list registration) (n : string) :
  n ∉ raw_names calls -> get (register_all init calls) n = None.
Proof.
  intros Hn. unfold get. apply not_elem_of_dom.
  rewrite register_all_dom. simpl. rewrite dom_empty_L. set_solver.
Qed.

Lemma entry_registered (calls : list registration) (c : registration) (t : MCPAgentTool) :
  c ∈ calls -> t ∈ reg_tools c ->
  make_entry (reg_server c) (reg_client c) t ∈ all_tools (register_all init calls).
Proof.
  intros Hc Ht. unfold all_tools. rewrite register_all_tools. simpl.
  unfold entries_of. apply list_elem_of_In, in_flat_map.
  exists c. split; [by apply list_elem_of_In|].
  apply in_map. by apply list_elem_of_In.
Qed.

(** C9. Registration stores each tool under the qualified name
    [lower(server_name) + "_" + raw name] and indexes it under the raw name:
    the keys a batch adds to the lookup dict are exactly its raw names, and
    looking one up gives an entry whose qualified name is the server's
    lower-cased name, an underscore and that raw name.  (For server "Jira"
    and tool "list_issues": key "list_issues", name "jira_list_issues".) *)
Theorem register_key_and_qualified_name
        (self : MCPToolRegistry) (server : string) (session : client)
        (mcp_tools : list MCPAgentTool) (t : MCPAgentTool) :
  t ∈ mcp_tools ->
  let r := (register self server session mcp_tools).1 in
  let e := make_entry server session t in
  e ∈ all_tools r
  /\ name e = lower server ++ "_" ++ tool_name t
  /\ dom (_index r) = dom (_index self) ∪ list_to_set (map tool_name mcp_tools)
  /\ exists e', get r (tool_name t) = Some e'
             /\ name e' = lower server ++ "_" ++ tool_name t
             /\ server_name e' = server /\ started_client e' = session.
Proof.
  intros Hin r e. subst r e. unfold register, all_tools, get.
  rewrite register_loop_tools, register_loop_dom.
  split; [|split; [done|split; [done|]]].
  - apply elem_of_app. right. apply list_elem_of_fmap. by exists t.
  - destruct (last_with_name (tool_name t) mcp_tools) as (pre & t' & post & -> & Hname & Hlast).
    { apply list_elem_of_fmap. by exists t. }
    exists (make_entry server session t'). rewrite <- Hname in *.
    rewrite register_loop_index_last by done. done.
Qed.

(** The round trip of the specification: server "Jira", tool "list_issues"
    with description "list jira issues". *)
Lemma register_key_and_qualified_name_witness :
  let t := {| tool_name := "list_issues";
              tool_spec := {| spec_description := Some "list jira issues";
                              spec_inputSchema := None |} |} in
  let r := (register init "Jira" 0 [t]).1 in
  exists e', get r "list_issues" = Some e' /\ name e' = "jira_list_issues"
             /\ server_name e' = "Jira" /\ started_client e' = 0%nat.
Proof.
  intros t r.
  destruct (register_key_and_qualified_name init "Jira" 0 [t] t)
    as (_ & _ & _ & e' & Hget & Hname & Hserver & Hclient).
  - apply list_elem_of_here.
  - exists e'. auto.
Defined.

(** C6. Two tools with one raw name, registered by two backends: the later
    registration replaces the earlier entry under that key of the lookup
    dict (last registration wins for [get]), while the tool list keeps both
    entries; every registration only appends to the list, in the order
    given, and returns the number of tools it added. *)
Theorem register_same_raw_name_last_wins
        (self : MCPToolRegistry) (s1 s2 : string) (c1 c2 : client)
        (ts1 pre post : list MCPAgentTool) (t1 t2 : MCPAgentTool) :
  t1 ∈ ts1 -> tool_name t2 = tool_name t1 -> tool_name t2 ∉ map tool_name post ->
  let r1 := (register self s1 c1 ts1).1 in
  let ts2 := (pre ++ t2 :: post)%list in
  let r2 := (register r1 s2 c2 ts2).1 in
  (exists t1', tool_name t1' = tool_name t1
               /\ get r1 (tool_name t1) = Some (make_entry s1 c1 t1'))
  /\ get r2 (tool_name t1) = Some (make_entry s2 c2 t2)
  /\ all_tools r2
     = (all_tools self ++ map (make_entry s1 c1) ts1 ++ map (make_entry s2 c2) ts2)%list
  /\ make_entry s1 c1 t1 ∈ all_tools r2
  /\ make_entry s2 c2 t2 ∈ all_tools r2
  /\ (register self s1 c1 ts1).2 = length ts1
  /\ (register r1 s2 c2 ts2).2 = length ts2
  /\ total r2 = (total self + length ts1 + length ts2)%nat.
Proof.
  intros Hin Hname Hlast r1 ts2 r2. subst r1 ts2 r2.
  unfold register, all_tools, get, total.
  rewrite !register_loop_tools, !register_loop_count.
  repeat split.
  - destruct (last_with_name (tool_name t1) ts1) as (pre1 & t1' & post1 & -> & Hn1 & Hl1).
    { apply list_elem_of_fmap. by exists t1. }
    exists t1'. split; [done|]. rewrite <- Hn1 in *.
    by rewrite register_loop_index_last.
  - rewrite <- Hname. by rewrite register_loop_index_last.
  - by rewrite <- app_assoc.
  - apply elem_of_app. left. apply elem_of_app. right.
    apply list_elem_of_fmap. by exists t1.
  - apply elem_of_app. right. apply list_elem_of_fmap. exists t2.
    split; [done|]. apply elem_of_app. right. apply list_elem_of_here.
  - repeat (rewrite ?length_app, ?length_map; simpl). lia.
Qed.

(** Two backends that both report a tool "list_issues". *)
Lemma register_same_raw_name_last_wins_witness :
  let t := {| tool_name := "list_issues";
              tool_spec := {| spec_description := None; spec_inputSchema := None |} |} in
  let r2 := (register (register init "Jira" 1 [t]).1 "GitHub" 2 [t]).1 in
  get r2 "list_issues" = Some (make_entry "GitHub" 2 t)
  /\ map name (all_tools r2) = ["jira_list_issues"; "github_list_issues"].
Proof.
  intros t r2.
  destruct (register_same_raw_name_last_wins init "Jira" "GitHub" 1 2 [t] [] [] t t)
    as (_ & Hget & Hall & _).
  - apply list_elem_of_here.
  - reflexivity.
  - apply not_elem_of_nil.
  - split; [exact Hget|exact (f_equal (map name) Hall)].
Defined.

(* ===================================================================== *)
(** ** Properties of the search *)
(* ===================================================================== *)

Section SortFacts.

Lemma insert_reverse_perm x l : Permutation (insert_reverse x l) (x :: l).
Proof.
  induction l as [|y l IH]; simpl; [done|].
  destruct (Qle_bool (fst y) (fst x)); [done|].
  rewrite IH. apply perm_swap.
Qed.

Lemma sort_reverse_perm l : Permutation (sort_reverse l) l.
Proof.
  induction l as [|x l IH]; simpl; [done|].
  rewrite insert_reverse_perm. by constructor.
Qed.

Lemma insert_reverse_sorted x l :
  StronglySorted above l -> StronglySorted above (insert_reverse x l).
Proof.
  induction 1 as [|y l Hl IH Hy]; simpl.
  - repeat constructor.
  - destruct (Qle_bool (fst y) (fst x)) eqn:Hle.
    + apply Qle_bool_iff in Hle. constructor; [by constructor|].
      constructor; [done|].
      eapply Forall_impl; [exact Hy|]. intros z Hz. unfold above in *.
      by apply Qle_trans with (fst y).
    + constructor; [done|].
      assert (Hlt : (fst x < fst y)%Q).
      { apply Qnot_le_lt. intros H. apply Qle_bool_iff in H. congruence. }
      eapply Permutation_Forall; [symmetry; apply insert_reverse_perm|].
      constructor; [|done]. unfold above. by apply Qlt_le_weak.
Qed.

Lemma sort_reverse_sorted l : StronglySorted above (sort_reverse l).
Proof.
  induction l as [|x l IH]; simpl; [constructor|by apply insert_reverse_sorted].
Qed.

Lemma insert_reverse_stable (q : Q) x l :
  List.filter (fun y => Qeq_bool (fst y) q) (insert_reverse x l)
  = List.filter (fun y => Qeq_bool (fst y) q) (x :: l).
Proof.
  induction l as [|y l IH]; [done|].
  simpl insert_reverse. destruct (Qle_bool (fst y) (fst x)) eqn:Hle; [done|].
  simpl in *. rewrite IH.
  destruct (Qeq_bool (fst x) q) eqn:Hx, (Qeq_bool (fst y) q) eqn:Hy; try done.
  exfalso. apply Qeq_bool_iff in Hx, Hy.
  assert (H : Qle_bool (fst y) (fst x) = true); [|congruence].
  apply Qle_bool_iff. rewrite Hx, Hy. apply Qle_refl.
Qed.

Lemma sort_reverse_stable (q : Q) l :
  List.filter (fun y => Qeq_bool (fst y) q) (sort_reverse l)
  = List.filter (fun y => Qeq_bool (fst y) q) l.
Proof.
  induction l as [|x l IH]; [done|].
  simpl sort_reverse. rewrite insert_reverse_stable. simpl. by rewrite IH.
Qed.

End SortFacts.

Section SearchFacts.
Context (words : gset string).

Lemma scored_loop_spec tools : forall scored,
  scored_loop words tools scored = (scored ++ scored_of words tools)%list.
Proof.
  unfold scored_of.
  induction tools as [|e rest IH]; intros scored; simpl.
  - by rewrite app_nil_r.
  - rewrite IH. unfold positive. destruct (Qlt_le_dec 0 (score words e)); simpl; [|done].
    by rewrite <- app_assoc.
Qed.

Lemma positive_spec e : positive words e = true <-> (0 < score words e)%Q.
Proof.
  unfold positive. destruct (Qlt_le_dec 0 (score words e)) as [H|H]; split; try done.
  intros Hlt. exfalso. by apply (Qlt_not_le _ _ Hlt).
Qed.

Lemma scored_of_keyed tools : keyed words (scored_of words tools).
Proof. unfold keyed, scored_of. apply Forall_forall. intros x Hx.
  apply list_elem_of_In, in_map_iff in Hx as (e & <- & _). done. Qed.

Lemma keyed_filter q l : keyed words l ->
  map snd (List.filter (fun y => Qeq_bool (fst y) q) l)
  = List.filter (scores words q) (map snd l).
Proof.
  induction 1 as [|x l Hx Hl IH]; [done|]. simpl. unfold scores at 1. rewrite <- Hx.
  destruct (Qeq_bool (fst x) q); simpl; by rewrite IH.
Qed.

Lemma keyed_sorted l : keyed words l -> StronglySorted above l ->
  StronglySorted (fun a b => (score words b <= score words a)%Q) (map snd l).
Proof.
  intros Hk Hs. induction Hs as [|x l Hl IH Hx]; simpl; [constructor|].
  apply Forall_cons in Hk as [Hkx Hk].
  constructor; [by apply IH|].
  apply Forall_map. apply Forall_forall. intros y Hy. simpl.
  rewrite Forall_forall in Hx, Hk. specialize (Hx y Hy). specialize (Hk y Hy).
  unfold above in Hx. by rewrite <- Hkx, <- Hk.
Qed.

Lemma map_snd_scored_of tools :
  map snd (scored_of words tools) = List.filter (positive words) tools.
Proof. unfold scored_of. rewrite map_map. simpl. apply map_id. Qed.

End SearchFacts.

Lemma slice_to_map {A B} (f : A -> B) k l : map f (slice_to k l) = slice_to k (map f l).
Proof. unfold slice_to. rewrite length_map. destruct (0 <=? k)%Z; by rewrite <- fmap_take. Qed.

Lemma slice_to_nonneg {A} k (l : list A) : (0 <= k)%Z -> slice_to k l = take (Z.to_nat k) l.
Proof. intros H. unfold slice_to. by rewrite (proj2 (Z.leb_le 0 k) H). Qed.

Lemma slice_to_neg {A} k (l : list A) : (k < 0)%Z -> slice_to k l = take (length l - Z.to_nat (- k)) l.
Proof. intros H. unfold slice_to. by rewrite (proj2 (Z.leb_gt 0 k) H). Qed.

Lemma slice_to_sublist {A} k (l : list A) x : x ∈ slice_to k l -> x ∈ l.
Proof.
  unfold slice_to. destruct (0 <=? k)%Z; intros H;
    apply elem_of_take in H as (i & Hi & _); by eapply list_elem_of_lookup_2.
Qed.

Lemma score_as_quotient (words : gset string) (e : entry) :
  words <> ∅ ->
  (score words e
   == inject_Z (Z.of_nat (size (words ∩ tokens (name e ++ " " ++ description e))))
      / inject_Z (Z.of_nat (size words)))%Q.
Proof.
  intros Hne. unfold score. rewrite Qmake_Qdiv.
  assert (Hsize : size words <> 0%nat).
  { apply size_non_empty_iff. intros H. apply Hne. by apply leibniz_equiv. }
  replace (Z.pos (Pos.of_nat (size words))) with (Z.of_nat (size words)); [reflexivity|].
  destruct (size words) as [|n]; [done|]. rewrite <- Pos.of_nat_succ. lia.
Qed.

Lemma positive_of_scores (words : gset string) (q : Q) (e : entry) :
  (0 < q)%Q -> scores words q e = true -> positive words e = true.
Proof.
  intros Hq Hs. apply positive_spec. apply Qeq_bool_iff in Hs. by rewrite Hs.
Qed.

Lemma filter_scores_positive (words : gset string) (q : Q) (tools : list entry) :
  (0 < q)%Q ->
  List.filter (scores words q) (List.filter (positive words) tools)
  = List.filter (scores words q) tools.
Proof.
  intros Hq. induction tools as [|e rest IH]; [done|]. simpl.
  destruct (positive words e) eqn:Hpos; simpl.
  - by rewrite IH.
  - rewrite IH. destruct (scores words q e) eqn:Hs; [|done].
    rewrite (positive_of_scores words q e Hq Hs) in Hpos. done.
Qed.

(** The ranking [search] cuts its answer from, for a query with tokens. *)
Lemma search_ranked (self : MCPToolRegistry) (query : string) (top_k : Z) :
  tokens query <> ∅ ->
  search self query top_k
  = slice_to top_k (map snd (sort_reverse (scored_of (tokens query) (_tools self)))).
Proof.
  intros Hne. unfold search. destruct (decide (tokens query = ∅)); [done|].
  rewrite scored_loop_spec. simpl. by rewrite slice_to_map.
Qed.

(** C2. For a query with at least one token, [search] scores every entry by
    the share of the query's tokens found among the tokens of its qualified
    name, a space and its description; it keeps exactly the entries of
    positive score, orders them by descending score, leaves entries of equal
    score in registration order, and returns the first [top_k] of that
    ranking; no returned entry has score 0, and the answer is a function of
    the tool list, the query and [top_k] alone. *)
Theorem search_ranks_by_token_overlap
        (self : MCPToolRegistry) (query : string) (top_k : Z) :
  tokens query <> ∅ ->
  let words := tokens query in
  exists ranked : list entry,
    (forall e,
        (score words e
         == inject_Z (Z.of_nat (size (words ∩ tokens (name e ++ " " ++ description e))))
            / inject_Z (Z.of_nat (size words)))%Q)
    /\ Permutation ranked (List.filter (positive words) (all_tools self))
    /\ (forall e, e ∈ ranked <-> e ∈ all_tools self /\ (0 < score words e)%Q)
    /\ StronglySorted (fun a b => (score words b <= score words a)%Q) ranked
    /\ (forall q, (0 < q)%Q ->
                  List.filter (scores words q) ranked
                  = List.filter (scores words q) (all_tools self))
    /\ search self query top_k = slice_to top_k ranked
    /\ ((0 <= top_k)%Z -> search self query top_k = take (Z.to_nat top_k) ranked)
    /\ (forall e, e ∈ search self query top_k -> ~ (score words e == 0)%Q)
    /\ (forall self', all_tools self' = all_tools self ->
                      search self' query top_k = search self query top_k).
Proof.
  intros Hne words. unfold all_tools.
  set (sorted := sort_reverse (scored_of words (_tools self))).
  assert (Hperm : Permutation sorted (scored_of words (_tools self)))
    by apply sort_reverse_perm.
  assert (Hkeyed : keyed words sorted).
  { unfold keyed. eapply Permutation_Forall; [symmetry; exact Hperm|].
    apply scored_of_keyed. }
  assert (Hmem : forall e, e ∈ map snd sorted <-> e ∈ _tools self /\ (0 < score words e)%Q).
  { intros e. rewrite (Permutation_map snd Hperm), map_snd_scored_of.
    rewrite list_elem_of_In, filter_In, positive_spec, <- list_elem_of_In. done. }
  exists (map snd sorted). repeat split.
  - intros e. by apply score_as_quotient.
  - rewrite <- map_snd_scored_of. by apply Permutation_map.
  - by apply Hmem.
  - by apply Hmem.
  - intros [Hin Hpos]. apply Hmem. done.
  - apply keyed_sorted; [done|]. apply sort_reverse_sorted.
  - intros q Hq. rewrite <- (keyed_filter words q sorted Hkeyed).
    unfold sorted. rewrite sort_reverse_stable.
    rewrite (keyed_filter words q _ (scored_of_keyed words _)).
    rewrite map_snd_scored_of. by apply filter_scores_positive.
  - by apply search_ranked.
  - intros Hk. rewrite search_ranked by done. by apply slice_to_nonneg.
  - intros e He Hzero. rewrite search_ranked in He by done.
    apply slice_to_sublist, Hmem in He as [_ Hpos].
    rewrite Hzero in Hpos. by apply (Qlt_irrefl 0).
  - intros self' Htools. rewrite !search_ranked by done. by rewrite Htools.
Qed.

(** On the sample catalog, "list issues" ranks the two tools that hold both
    words first, in registration order. *)
Lemma search_ranks_by_token_overlap_witness :
  tokens "list issues" <> ∅
  /\ exists ranked,
      search Samples.catalog "list issues" 2 = take 2 ranked
      /\ StronglySorted
           (fun a b => (score (tokens "list issues") b <= score (tokens "list issues") a)%Q)
           ranked
      /\ map name (search Samples.catalog "list issues" 2)
         = ["jira_list_issues"; "github_list_issues"].
Proof.
  assert (Hne : tokens "list issues" <> ∅).
  { intros H. apply (f_equal size) in H. vm_compute in H. discriminate H. }
  split; [exact Hne|].
  destruct (search_ranks_by_token_overlap Samples.catalog "list issues" 2 Hne)
    as (ranked & _ & _ & _ & Hsorted & _ & _ & Htake & _).
  exists ranked. split; [apply Htake; lia|]. split; [exact Hsorted|].
  vm_compute. reflexivity.
Defined.

(* --------------------------------------------------------------------- *)
(** *** Queries without tokens *)

Lemma rev_empty (s : string) : PyStr.rev s = "" -> s = "".
Proof.
  destruct s as [|c s]; [done|]. simpl. destruct (PyStr.rev s); discriminate.
Qed.

Lemma lstrip_cases (s : string) :
  lstrip s = "" \/ exists c t, lstrip s = String c t /\ is_space c = false.
Proof.
  induction s as [|c s IH]; simpl; [by left|].
  destruct (is_space c) eqn:Hc; [done|]. right. by exists c, s.
Qed.

Lemma lstrip_ends_with (u : string) (c : ascii) :
  is_space c = false -> lstrip (u ++ String c "") <> "".
Proof.
  intros Hc. induction u as [|d u IH]; simpl.
  - by rewrite Hc.
  - by destruct (is_space d).
Qed.

Lemma strip_empty (s : string) : strip s = "" -> lstrip s = "".
Proof.
  unfold strip, rstrip. intros H. apply rev_empty in H.
  destruct (lstrip_cases s) as [Hs|(c & t & Hs & Hc)]; [done|].
  rewrite Hs in H. simpl in H. by apply lstrip_ends_with in H.
Qed.

Lemma space_is_no_word (c : ascii) : is_space c = true -> is_word (lower_char c) = false.
Proof.
  destruct c as [[] [] [] [] [] [] [] []]; vm_compute; congruence.
Qed.

Lemma lstrip_empty_no_words (s : string) :
  lstrip s = "" -> findall_words_from "" (lower s) = [].
Proof.
  induction s as [|c s IH]; simpl; [done|].
  destruct (is_space c) eqn:Hc; [|discriminate].
  intros H. rewrite (space_is_no_word c Hc). simpl. by apply IH.
Qed.

(** An empty or whitespace-only query has no token. *)
Lemma tokens_blank (query : string) : strip query = "" -> tokens query = ∅.
Proof.
  intros H. unfold tokens, findall_words.
  by rewrite (lstrip_empty_no_words query (strip_empty query H)).
Qed.

Lemma take_min_length {A} (k : nat) (l : list A) : take (Nat.min k (length l)) l = take k l.
Proof.
  destruct (Nat.le_gt_cases k (length l)) as [Hle|Hgt].
  - by rewrite Nat.min_l.
  - rewrite Nat.min_r by lia. rewrite !take_ge; [done|lia|lia].
Qed.

(** C3, as the code has it. For a query without tokens (empty,
    whitespace-only, punctuation), [search] returns the Python slice
    [tools[:top_k]] of the tool list: for [top_k >= 0] the first
    [min(top_k, total)] entries in registration order, nothing for
    [top_k = 0]; a negative [top_k] is not clamped, the slice then drops
    the last [-top_k] entries. *)
Theorem search_without_tokens (self : MCPToolRegistry) (query : string) (top_k : Z) :
  tokens query = ∅ ->
  search self query top_k = slice_to top_k (all_tools self)
  /\ ((0 <= top_k)%Z ->
      search self query top_k
      = take (Nat.min (Z.to_nat top_k) (total self)) (all_tools self))
  /\ (top_k = 0%Z -> search self query top_k = [])
  /\ ((top_k < 0)%Z ->
      search self query top_k
      = take (total self - Z.to_nat (- top_k)) (all_tools self)).
Proof.
  intros Hempty.
  assert (Hslice : search self query top_k = slice_to top_k (all_tools self)).
  { unfold search. by destruct (decide (tokens query = ∅)). }
  rewrite Hslice. unfold total, all_tools. repeat split.
  - intros Hk. rewrite take_min_length. by apply slice_to_nonneg.
  - intros ->. done.
  - intros Hk. by apply slice_to_neg.
Qed.

(** A whitespace-only query on the sample catalog. *)
Lemma search_without_tokens_witness :
  tokens "   " = ∅
  /\ map name (search Samples.catalog "   " 3)
     = ["jira_list_issues"; "jira_get_issue"; "github_list_issues"]
  /\ search Samples.catalog "   " 0 = [].
Proof.
  assert (Hblank : tokens "   " = ∅) by (apply tokens_blank; reflexivity).
  split; [exact Hblank|].
  destruct (search_without_tokens Samples.catalog "   " 3 Hblank) as (_ & Hthree & _).
  destruct (search_without_tokens Samples.catalog "   " 0 Hblank) as (_ & _ & Hzero & _).
  split; [|by apply Hzero].
  rewrite Hthree by lia. vm_compute. reflexivity.
Defined.

(** C3 as stated fails: with [top_k = -1] the empty query returns three of
    the four sample entries, where a [top_k] clamped to 0 would return
    none. *)
Lemma search_negative_top_k_not_clamped :
  tokens "" = ∅
  /\ map name (search Samples.catalog "" (-1))
     = ["jira_list_issues"; "jira_get_issue"; "github_list_issues"]
  /\ search Samples.catalog "" (-1)
     <> take (Nat.min (Z.to_nat (Z.max 0 (-1))) (total Samples.catalog))
             (all_tools Samples.catalog).
Proof.
  split; [by apply tokens_blank|]. split; [vm_compute; reflexivity|].
  intros H. apply (f_equal length) in H. vm_compute in H. discriminate H.
Qed.

(* ===================================================================== *)
(** ** Properties of [call_tool] *)
(* ===================================================================== *)

Section CallTool.
Context (py : interpreter) (registry : MCPToolRegistry) (world : backend)
        (uuid_hex : string).

(** The ways through [call_tool], one equation each. *)
Lemma call_tool_blank_name tool_name arguments :
  strip tool_name = "" ->
  call_tool py registry world uuid_hex tool_name arguments
  = (Returned empty_tool_name_message, []).
Proof. intros H. unfold call_tool. by rewrite H. Qed.

Lemma call_tool_parse_failure tool_name arguments args_str exc :
  strip tool_name <> "" ->
  parse_arguments py arguments = Invalid args_str exc ->
  call_tool py registry world uuid_hex tool_name arguments
  = (Returned (invalid_arguments_message args_str exc), []).
Proof.
  intros Hname Hparse. unfold call_tool.
  apply String.eqb_neq in Hname. by rewrite Hname, Hparse.
Qed.

Lemma call_tool_parse_uncaught tool_name arguments exc :
  strip tool_name <> "" ->
  parse_arguments py arguments = Uncaught exc ->
  call_tool py registry world uuid_hex tool_name arguments
  = (Raised (exc_type exc), []).
Proof.
  intros Hname Hparse. unfold call_tool.
  apply String.eqb_neq in Hname. by rewrite Hname, Hparse.
Qed.

Lemma call_tool_unknown tool_name arguments args :
  strip tool_name <> "" ->
  parse_arguments py arguments = Parsed args ->
  get registry (strip tool_name) = None ->
  call_tool py registry world uuid_hex tool_name arguments
  = (Returned (not_found_message (strip tool_name)
                 (search registry (strip tool_name) 3)),
     [RegistryGet (strip tool_name); RegistrySearch (strip tool_name) 3]).
Proof.
  intros Hname Hparse Hget. unfold call_tool.
  apply String.eqb_neq in Hname. by rewrite Hname, Hparse, Hget.
Qed.

Lemma call_tool_dispatch tool_name arguments args entry :
  strip tool_name <> "" ->
  parse_arguments py arguments = Parsed args ->
  get registry (strip tool_name) = Some entry ->
  let tool_use_id := "optimizer-" ++ prefix 8 uuid_hex in
  call_tool py registry world uuid_hex tool_name arguments
  = (match world (started_client entry) tool_use_id (strip tool_name) args with
     | inl exc =>
         if is_Exception exc
         then Returned (transport_error_message (strip tool_name) exc)
         else Raised (exc_type exc)
     | inr result => extract_text (strip tool_name) result
     end,
     [RegistryGet (strip tool_name);
      CallToolSync (started_client entry) tool_use_id (strip tool_name) args]).
Proof.
  intros Hname Hparse Hget tool_use_id. unfold call_tool.
  apply String.eqb_neq in Hname. rewrite Hname, Hparse, Hget.
  destruct (world _ _ _ _) as [exc|result]; [|done]. by destruct (is_Exception exc).
Qed.

(** No path calls a session twice. *)
Lemma call_tool_at_most_one_session_call tool_name arguments :
  (session_calls (call_tool py registry world uuid_hex tool_name arguments).2 <= 1)%nat.
Proof.
  unfold call_tool, session_calls. destruct (String.eqb _ _); [simpl; lia|].
  destruct (parse_arguments py arguments) as [args|? ?|?]; [|simpl; lia..].
  destruct (get registry _); [|simpl; lia].
  destruct (world _ _ _ _) as [exc|result]; [|simpl; lia].
  destruct (is_Exception exc); simpl; lia.
Qed.

End CallTool.


Lemma append_cons (x : ascii) (a b : string) : String x a ++ b = String x (a ++ b).
Proof. reflexivity. Qed.

Lemma append_assoc (a b c : string) : (a ++ b) ++ c = a ++ b ++ c.
Proof. induction a as [|x a IH]; [done|]. rewrite !append_cons. by rewrite IH. Qed.











(** C8 as stated fails: a session that raises [KeyboardInterrupt], which is
    no [Exception], is called once and the interrupt leaves [call_tool];
    no message is returned. *)
Lemma call_tool_interrupt_propagates :
  is_Exception Samples.interrupted = false
  /\ call_tool Samples.py Samples.catalog (Samples.fails Samples.interrupted)
               Samples.uuid_hex "get_issue" (ArgStr "{}")
     = (Raised "KeyboardInterrupt",
        [RegistryGet "get_issue";
         CallToolSync 1 "optimizer-01234567" "get_issue" (JObj [])])
  /\ forall text, Raised "KeyboardInterrupt" <> Returned text.
Proof.
  split; [reflexivity|]. split; [vm_compute; reflexivity|]. intros text H. discriminate H.
Qed.

(* --------------------------------------------------------------------- *)
(** *** The text drawn from a result *)

Lemma text_parts_loop_spec (content_blocks : list pyvalue) : forall text_parts,
  text_parts_loop content_blocks text_parts
  = (text_parts ++ map Py.str (List.filter Py.truthy (map block_text content_blocks)))%list.
Proof.
  induction content_blocks as [|block rest IH]; intros text_parts; simpl.
  - by rewrite app_nil_r.
  - rewrite IH. destruct (Py.truthy (block_text block)); simpl; [|done].
    by rewrite <- app_assoc.
Qed.

Lemma extract_text_dict (tool_name : string) (d : list (string * pyvalue))
      (blocks : list pyvalue) :
  Py.iterate (Py.get "content" (PyList []) d) = Some blocks ->
  Py.eq_str (Py.get "status" (PyStr "success") d) "error" = false ->
  extract_text tool_name (PyDict d)
  = Returned
      (let output :=
         match map Py.str (List.filter Py.truthy (map block_text blocks)) with
         | [] => Py.str (PyDict d)
         | parts => join nl parts
         end in
       if String.eqb output "" then empty_result else output).
Proof.
  intros Hiter Hstatus. unfold extract_text. rewrite Hiter, Hstatus.
  rewrite text_parts_loop_spec, app_nil_l.
  by destruct (map Py.str (List.filter Py.truthy (map block_text blocks))).
Qed.

Lemma join_not_empty (sep first : string) (others : list string) :
  first <> "" -> join sep (first :: others) <> "".
Proof.
  intros Hfirst. unfold join. simpl. destruct others as [|second others]; [done|].
  destruct first as [|c first]; [done|]. rewrite append_cons. discriminate.
Qed.

(** [join] with a line feed is the concatenation with newline separators
    of the specification. *)
Lemma join_lines (texts : list string) : join nl texts = Spec.lines texts.
Proof.
  unfold join. induction texts as [|t rest IH]; [done|].
  destruct rest as [|t' rest]; [done|].
  cbn [String.concat Spec.lines]. cbn [String.concat Spec.lines] in IH. by rewrite IH.
Qed.

Lemma lines_not_empty (first : string) (others : list string) :
  first <> "" -> Spec.lines (first :: others) <> "".
Proof. rewrite <- join_lines. apply join_not_empty. Qed.

(** The loop of [call_tool] draws from the blocks the texts that the
    specification names. *)
Lemma content_texts_drawn (blocks : list pyvalue) (texts : list string) :
  Spec.content_texts blocks texts ->
  map Py.str (List.filter Py.truthy (map block_text blocks)) = texts.
Proof.
  induction 1 as [|block s blocks texts Hblock _ IH|block blocks texts Hblock _ IH].
  - done.
  - cbn [map List.filter].
    assert (Htext : block_text block = PyStr s).
    { destruct Hblock as [d s Hd _|s shown printed _]; simpl; [|done].
      unfold Py.get. by rewrite Hd. }
    assert (Hs : s <> "") by (by destruct Hblock).
    rewrite Htext. simpl. apply String.eqb_neq in Hs. rewrite Hs. simpl. by rewrite IH.
  - cbn [map List.filter].
    assert (Htext : block_text block = PyStr "").
    { destruct block as [| | | | |d|text shown printed]; try done; simpl in *.
      - unfold Py.get. by destruct Hblock as [->| ->].
      - by destruct Hblock as [->| ->]. }
    rewrite Htext. simpl. exact IH.
Qed.

(** C7. When the session of a registered tool returns a dict whose status
    is not "error", the texts of its content blocks (the [text] entry of a
    map, the [text] attribute of an object) that are not empty are
    concatenated, in order, with one line feed between two consecutive
    texts, and that is what [call_tool] returns: for the texts a and b, a
    followed by a line feed and b; for the result [{"status": "success",
    "content": [{"text": "ok"}]}], exactly "ok". *)
Theorem call_tool_joins_block_texts
        (py : interpreter) (registry : MCPToolRegistry) (world : backend)
        (uuid_hex tool_name : string)
        (arguments : raw_arguments) (args : json) (entry : entry)
        (d : list (string * pyvalue)) (blocks : list pyvalue) (texts : list string) :
  strip tool_name <> "" ->
  parse_arguments py arguments = Parsed args ->
  get registry (strip tool_name) = Some entry ->
  world (started_client entry) ("optimizer-" ++ prefix 8 uuid_hex) (strip tool_name) args
  = inr (PyDict d) ->
  Py.iterate (Py.get "content" (PyList []) d) = Some blocks ->
  Py.eq_str (Py.get "status" (PyStr "success") d) "error" = false ->
  Spec.content_texts blocks texts ->
  texts <> [] ->
  let result := call_tool py registry world uuid_hex tool_name arguments in
  result.1 = Returned (Spec.lines texts)
  /\ Spec.lines texts <> ""
  /\ (forall a, texts = [a] -> result.1 = Returned a)
  /\ (forall a b, texts = [a; b] -> result.1 = Returned (a ++ String "010"%char b)).
Proof.
  intros Hname Hparse Hget Hworld Hiter Hstatus Htexts Hsome result.
  assert (Hout : Spec.lines texts <> "").
  { destruct texts as [|t texts']; [done|]. apply lines_not_empty.
    clear -Htexts. remember (t :: texts') as l eqn:Hl. revert Hl.
    induction Htexts as [|block s blocks texts Hblock _ _|block blocks texts _ _ IH];
      intros Hl; [discriminate Hl| |by apply IH].
    injection Hl as -> _. by destruct Hblock. }
  assert (Hres : result.1 = Returned (Spec.lines texts)).
  { subst result.
    rewrite (call_tool_dispatch py registry world uuid_hex tool_name arguments args entry)
      by done.
    cbv zeta. rewrite Hworld. cbn [fst snd]. rewrite (extract_text_dict _ d blocks) by done.
    rewrite (content_texts_drawn blocks texts Htexts).
    destruct texts as [|t texts'] eqn:Heq; [done|]. cbv beta iota zeta.
    rewrite join_lines. apply String.eqb_neq in Hout. by rewrite Hout. }
  split; [exact Hres|]. split; [exact Hout|]. split.
  - intros a ->. exact Hres.
  - intros a b ->. exact Hres.
Qed.

(** The example of the specification, and a result with four content
    blocks, of which a map and an object carry a text. *)
Lemma call_tool_joins_block_texts_witness :
  (call_tool Samples.py Samples.catalog (Samples.answers Samples.ok_result)
             Samples.uuid_hex "get_issue" (ArgStr "{}")).1
  = Returned "ok"
  /\ (call_tool Samples.py Samples.catalog (Samples.answers Samples.mixed_result)
                Samples.uuid_hex "get_issue" (ArgStr "{}")).1
     = Returned ("ok" ++ String "010"%char "done").
Proof.
  assert (Hname : strip "get_issue" <> "") by (vm_compute; discriminate).
  assert (Hparse : parse_arguments Samples.py (ArgStr "{}") = Parsed (JObj []))
    by (vm_compute; reflexivity).
  pose (entry := make_entry "Jira" 1 (Samples.tool "get_issue" "Get one issue by key")).
  split.
  - assert (Htexts : Spec.content_texts [PyDict [("text", PyStr "ok")]] ["ok"]).
    { apply Spec.block_with_text; [|apply Spec.no_blocks].
      by apply Spec.map_with_text. }
    exact (proj1 (proj2 (proj2 (call_tool_joins_block_texts Samples.py Samples.catalog
                    (Samples.answers Samples.ok_result) Samples.uuid_hex
                    "get_issue" (ArgStr "{}") (JObj []) entry
                    [("status", PyStr "success");
                     ("content", PyList [PyDict [("text", PyStr "ok")]])]
                    [PyDict [("text", PyStr "ok")]] ["ok"]
                    Hname Hparse eq_refl eq_refl eq_refl eq_refl Htexts
                    ltac:(discriminate)))) "ok" eq_refl).
  - assert (Htexts : Spec.content_texts Samples.mixed_blocks ["ok"; "done"]).
    { apply Spec.block_with_text; [by apply Spec.map_with_text|].
      apply Spec.block_with_text; [by apply Spec.object_with_text|].
      apply Spec.block_without_text; [by right|].
      apply Spec.block_without_text; [by left|]. apply Spec.no_blocks. }
    exact (proj2 (proj2 (proj2 (call_tool_joins_block_texts Samples.py Samples.catalog
                    (Samples.answers Samples.mixed_result) Samples.uuid_hex
                    "get_issue" (ArgStr "{}") (JObj []) entry
                    [("status", PyStr "success"); ("content", PyList Samples.mixed_blocks)]
                    Samples.mixed_blocks ["ok"; "done"]
                    Hname Hparse eq_refl eq_refl eq_refl eq_refl Htexts
                    ltac:(discriminate)))) "ok" "done" eq_refl).
Defined.

Lemma str_dict_starts_with_brace (d : list (string * pyvalue)) :
  exists rest, Py.str (PyDict d) = String "{" rest.
Proof. eexists. simpl. rewrite append_cons. reflexivity. Qed.

(** C5, what the code does. When the session of a registered tool returns a
    dict from which no text is drawn and whose status is not "error",
    [call_tool] returns [str(result)], the text of the whole dict: the
    fallback is taken whether or not the dict is empty, its text is never
    empty, and so the marker "(Tool returned an empty result)" is not
    returned; for the empty dict the answer is "{}". *)
Theorem call_tool_textless_dict_is_stringified
        (py : interpreter) (registry : MCPToolRegistry) (world : backend) (uuid_hex tool_name : string)
        (arguments : raw_arguments) (args : json) (entry : entry)
        (d : list (string * pyvalue)) (blocks : list pyvalue) :
  strip tool_name <> "" ->
  parse_arguments py arguments = Parsed args ->
  get registry (strip tool_name) = Some entry ->
  world (started_client entry) ("optimizer-" ++ prefix 8 uuid_hex) (strip tool_name) args
  = inr (PyDict d) ->
  Py.iterate (Py.get "content" (PyList []) d) = Some blocks ->
  Py.eq_str (Py.get "status" (PyStr "success") d) "error" = false ->
  List.filter Py.truthy (map block_text blocks) = [] ->
  let result := call_tool py registry world uuid_hex tool_name arguments in
  result.1 = Returned (Py.str (PyDict d))
  /\ Py.str (PyDict d) <> ""
  /\ result.1 <> Returned empty_result.
Proof.
  intros Hname Hparse Hget Hworld Hiter Hstatus Htexts result.
  destruct (str_dict_starts_with_brace d) as [rest Hrest].
  assert (Hres : result.1 = Returned (Py.str (PyDict d))).
  { subst result.
    rewrite (call_tool_dispatch py registry world uuid_hex tool_name arguments args entry)
      by done.
    cbv zeta. rewrite Hworld. cbn [fst snd].
    rewrite (extract_text_dict _ d blocks) by done.
    rewrite Htexts. cbn [map]. by rewrite Hrest. }
  split; [exact Hres|]. split.
  - rewrite Hrest. discriminate.
  - rewrite Hres, Hrest. unfold empty_result. discriminate.
Qed.

(** A session that returns the empty dict. *)
Lemma call_tool_textless_dict_is_stringified_witness :
  (call_tool Samples.py Samples.catalog (Samples.answers (PyDict [])) Samples.uuid_hex
             "get_issue" (ArgStr "{}")).1
  = Returned "{}"
  /\ Returned "{}" <> Returned empty_result.
Proof.
  assert (Hname : strip "get_issue" <> "") by (vm_compute; discriminate).
  assert (Hparse : parse_arguments Samples.py (ArgStr "{}") = Parsed (JObj []))
    by (vm_compute; reflexivity).
  destruct (call_tool_textless_dict_is_stringified Samples.py Samples.catalog
              (Samples.answers (PyDict [])) Samples.uuid_hex
              "get_issue" (ArgStr "{}") (JObj [])
              (make_entry "Jira" 1 (Samples.tool "get_issue" "Get one issue by key"))
              [] [] Hname Hparse eq_refl eq_refl eq_refl eq_refl eq_refl)
    as (Hres & _ & Hmarker).
  split; [exact Hres|]. rewrite Hres in Hmarker. exact Hmarker.
Defined.

(* --------------------------------------------------------------------- *)
(** *** Names shown by [find_tool] and names accepted by [call_tool] *)

Lemma lstrip_keeps (a b : string) (c : ascii) :
  is_space c = false -> lstrip (a ++ String c b) <> "".
Proof.
  intros Hc. induction a as [|d a IH]; simpl.
  - by rewrite Hc.
  - by destruct (is_space d).
Qed.

Lemma strip_qualified_not_empty (server raw_name : string) :
  strip (lower server ++ "_" ++ raw_name) <> "".
Proof.
  intros H. apply strip_empty in H. revert H.
  change ("_" ++ raw_name) with (String "_" raw_name). by apply lstrip_keeps.
Qed.

(** C1, as the code has it. For every registered tool, [find_tool] shows
    the qualified name [lower(server) + "_" + raw name].  When that name is
    none of the registered raw names, [get] of it is absent; and when the
    name stripped of surrounding whitespace, which is what [call_tool] looks
    up, is none of them either, [call_tool] with the shown name and
    arguments that decode returns the not-found message with the
    suggestions of [search(name, 3)], and no session is called. *)
Theorem shown_name_is_not_found
        (py : interpreter) (calls : list registration) (c : registration)
        (t : MCPAgentTool) (world : backend) (uuid_hex : string)
        (arguments : raw_arguments) (args : json) :
  c ∈ calls -> t ∈ reg_tools c ->
  parse_arguments py arguments = Parsed args ->
  let registry := register_all init calls in
  let entry := make_entry (reg_server c) (reg_client c) t in
  let shown := name entry in
  entry ∈ all_tools registry
  /\ shown = lower (reg_server c) ++ "_" ++ tool_name t
  /\ (forall dumps i, exists rest,
         render_entry dumps i entry = "[" ++ pretty i ++ "] " ++ shown ++ rest)
  /\ (shown ∉ raw_names calls -> get registry shown = None)
  /\ (strip shown ∉ raw_names calls ->
      let result := call_tool py registry world uuid_hex shown arguments in
      result.1 = Returned (not_found_message (strip shown)
                             (search registry (strip shown) 3))
      /\ result.2 = [RegistryGet (strip shown); RegistrySearch (strip shown) 3]
      /\ session_calls result.2 = 0%nat).
Proof.
  intros Hc Ht Hparse registry entry shown.
  split; [by apply entry_registered|]. split; [done|]. split; [|split].
  - intros dumps i. unfold render_entry. eexists. reflexivity.
  - by apply get_unregistered.
  - intros Hstripped result. subst result.
    rewrite (call_tool_unknown py registry world uuid_hex shown arguments args).
    + done.
    + apply strip_qualified_not_empty.
    + done.
    + by apply get_unregistered.
Qed.

(** On the sample catalog, the name shown for Jira's "list_issues". *)
Lemma shown_name_is_not_found_witness :
  Samples.jira ∈ [Samples.jira; Samples.github]
  /\ get Samples.catalog "jira_list_issues" = None
  /\ (call_tool Samples.py Samples.catalog (Samples.answers Samples.ok_result) Samples.uuid_hex
                "jira_list_issues" (ArgStr "{}")).2
     = [RegistryGet "jira_list_issues"; RegistrySearch "jira_list_issues" 3].
Proof.
  assert (Hc : Samples.jira ∈ [Samples.jira; Samples.github]) by apply list_elem_of_here.
  assert (Ht : Samples.tool "list_issues" "list jira issues" ∈ reg_tools Samples.jira)
    by apply list_elem_of_here.
  assert (Hparse : parse_arguments Samples.py (ArgStr "{}") = Parsed (JObj []))
    by (vm_compute; reflexivity).
  assert (Hfresh : forall n, n ∈ raw_names [Samples.jira; Samples.github] ->
                             n <> "jira_list_issues").
  { intros n Hn. simpl in Hn.
    repeat (apply elem_of_cons in Hn as [->|Hn]; [discriminate|]).
    by apply elem_of_nil in Hn. }
  destruct (shown_name_is_not_found Samples.py [Samples.jira; Samples.github] Samples.jira
              (Samples.tool "list_issues" "list jira issues")
              (Samples.answers Samples.ok_result) Samples.uuid_hex
              (ArgStr "{}") (JObj []) Hc Ht Hparse)
    as (_ & _ & _ & Hget & Hcall).
  split; [exact Hc|]. split.
  - apply Hget. intros Hin. by apply (Hfresh _ Hin).
  - apply Hcall. intros Hin. by apply (Hfresh _ Hin).
Defined.

(** C1 as stated fails: the qualified name "a_b " (raw name "b " of server
    "a") is none of the raw names and [get] of it is absent, yet
    [call_tool] strips it to "a_b", the raw name of another tool, and calls
    that tool's session instead of answering that the tool is not found. *)
Lemma shown_name_with_space_is_dispatched :
  name (make_entry "a" 7 (Samples.tool "b " "first")) = "a_b "
  /\ (make_entry "a" 7 (Samples.tool "b " "first")) ∈ all_tools Samples.spaced_catalog
  /\ ("a_b " ∉ raw_names [Samples.spaced])
  /\ get Samples.spaced_catalog "a_b " = None
  /\ call_tool Samples.py Samples.spaced_catalog (Samples.answers Samples.ok_result)
               Samples.uuid_hex "a_b " (ArgStr "{}")
     = (Returned "ok",
        [RegistryGet "a_b"; CallToolSync 7 "optimizer-01234567" "a_b" (JObj [])]).
Proof.
  split; [reflexivity|]. split; [apply list_elem_of_here|]. split; [|split].
  - intros Hin. simpl in Hin.
    repeat (apply elem_of_cons in Hin as [Hin|Hin]; [discriminate Hin|]).
    by apply elem_of_nil in Hin.
  - vm_compute. reflexivity.
  - vm_compute. reflexivity.
Qed.

(* ===================================================================== *)
(** ** More on registration *)
(* ===================================================================== *)

Lemma register_all_app (before after : list registration) (self : MCPToolRegistry) :
  register_all self (before ++ after) = register_all (register_all self before) after.
Proof. unfold register_all. by rewrite fold_left_app. Qed.

Lemma register_all_index_other (calls : list registration) (n : string) : forall self,
  n ∉ raw_names calls -> _index (register_all self calls) !! n = _index self !! n.
Proof.
  induction calls as [|c calls IH]; intros self Hn; [done|].
  simpl in Hn. apply not_elem_of_app in Hn as [Hc Hn].
  change (register_all self (c :: calls))
    with (register_all (register self (reg_server c) (reg_client c) (reg_tools c)).1 calls).
  rewrite IH by done. unfold register. by rewrite register_loop_index_other.
Qed.

(** The last registration call that reports a given raw name. *)
Lemma last_call_with_name (n : string) (calls : list registration) :
  n ∈ raw_names calls ->
  exists before c after,
    calls = (before ++ c :: after)%list /\ n ∈ map tool_name (reg_tools c)
    /\ n ∉ raw_names after.
Proof.
  induction calls as [|c calls IH]; simpl; intros Hin; [by apply elem_of_nil in Hin|].
  destruct (decide (n ∈ raw_names calls)) as [Hlater|Hlast].
  - destruct (IH Hlater) as (before & c' & after & -> & ? & ?).
    by exists (c :: before), c', after.
  - apply elem_of_app in Hin as [Hin|Hin]; [|done].
    by exists [], c, calls.
Qed.

(** X1. Registration is additive: a call returns the number of tools it was
    given, and after any sequence of calls the tool list is the old list
    followed by one entry per reported tool, in order, so that [total] has
    grown by the sum of the counts returned. *)
Theorem register_all_additive (self : MCPToolRegistry) (calls : list registration) :
  (forall r c, (register r (reg_server c) (reg_client c) (reg_tools c)).2
               = length (reg_tools c))
  /\ all_tools (register_all self calls) = (all_tools self ++ entries_of calls)%list
  /\ total (register_all self calls)
     = (total self + sum_list (map (fun c => length (reg_tools c)) calls))%nat.
Proof.
  split; [|split].
  - intros r c. unfold register. by rewrite register_loop_count.
  - apply register_all_tools.
  - unfold total. rewrite register_all_tools, length_app. f_equal.
    induction calls as [|c calls IH]; [done|].
    simpl. rewrite length_app, length_map. by rewrite <- IH.
Qed.

(** X2. The lookup dict of a registry built from the empty one holds
    exactly the raw names reported: [get] of a name answers if and only if
    some backend reported it, the answer is the entry made for the last
    report of that name, and that entry is in the tool list. *)
Theorem get_after_registrations (calls : list registration) (n : string) :
  let registry := register_all init calls in
  (is_Some (get registry n) <-> n ∈ raw_names calls)
  /\ (forall before c after pre t post,
         calls = (before ++ c :: after)%list -> n ∉ raw_names after ->
         reg_tools c = (pre ++ t :: post)%list -> tool_name t = n ->
         n ∉ map tool_name post ->
         get registry n = Some (make_entry (reg_server c) (reg_client c) t))
  /\ (forall e, get registry n = Some e ->
                e ∈ all_tools registry
                /\ exists c t, c ∈ calls /\ t ∈ reg_tools c /\ tool_name t = n
                               /\ e = make_entry (reg_server c) (reg_client c) t).
Proof.
  intros registry.
  assert (Hlast : forall before c after pre t post,
             calls = (before ++ c :: after)%list -> n ∉ raw_names after ->
             reg_tools c = (pre ++ t :: post)%list -> tool_name t = n ->
             n ∉ map tool_name post ->
             get registry n = Some (make_entry (reg_server c) (reg_client c) t)).
  { intros before c after pre t post -> Hafter Htools <- Hpost. subst registry.
    unfold get. rewrite register_all_app.
    change (register_all (register_all init before) (c :: after))
      with (register_all (register (register_all init before) (reg_server c)
                            (reg_client c) (reg_tools c)).1 after).
    rewrite register_all_index_other by done. unfold register. rewrite Htools.
    by apply register_loop_index_last. }
  assert (Hdom : is_Some (get registry n) <-> n ∈ raw_names calls).
  { unfold get. rewrite <- elem_of_dom. subst registry. rewrite register_all_dom.
    simpl. rewrite dom_empty_L. set_solver. }
  split; [exact Hdom|]. split; [exact Hlast|].
  intros e Hget.
  assert (Hin : n ∈ raw_names calls) by (apply Hdom; by exists e).
  destruct (last_call_with_name n calls Hin) as (before & c & after & Hcalls & Hc & Hafter).
  destruct (last_with_name n (reg_tools c) Hc) as (pre & t & post & Htools & Hname & Hpost).
  rewrite (Hlast before c after pre t post Hcalls Hafter Htools Hname Hpost) in Hget.
  injection Hget as <-.
  assert (Hcin : c ∈ calls) by (rewrite Hcalls; apply elem_of_app; right; apply list_elem_of_here).
  assert (Htin : t ∈ reg_tools c)
    by (rewrite Htools; apply elem_of_app; right; apply list_elem_of_here).
  split; [by apply entry_registered|]. by exists c, t.
Qed.

Lemma get_after_registrations_witness :
  get Samples.catalog "list_issues"
  = Some (make_entry "GitHub" 2 (Samples.tool "list_issues" "List GitHub issues"))
  /\ (make_entry "GitHub" 2 (Samples.tool "list_issues" "List GitHub issues"))
     ∈ all_tools Samples.catalog.
Proof.
  destruct (get_after_registrations [Samples.jira; Samples.github] "list_issues")
    as (_ & Hlast & Hlisted).
  assert (Hget : get Samples.catalog "list_issues"
                 = Some (make_entry "GitHub" 2
                           (Samples.tool "list_issues" "List GitHub issues"))).
  { apply (Hlast [Samples.jira] Samples.github [] []
                 (Samples.tool "list_issues" "List GitHub issues")
                 [Samples.tool "list_prs" "list pull requests"]); try reflexivity.
    - apply not_elem_of_nil.
    - simpl. intros H. apply elem_of_cons in H as [H|H]; [discriminate H|].
      by apply elem_of_nil in H. }
  split; [exact Hget|]. exact (proj1 (Hlisted _ Hget)).
Defined.

(* --------------------------------------------------------------------- *)
(** *** Servers *)

Lemma servers_loop_app (l1 l2 : list entry) : forall seen,
  servers_loop (l1 ++ l2) seen = servers_loop l2 (servers_loop l1 seen).
Proof. induction l1 as [|e l1 IH]; intros seen; simpl; [done|]. by rewrite IH. Qed.

Lemma servers_loop_elem (tools : list entry) (s : string) : forall seen,
  s ∈ servers_loop tools seen <-> s ∈ seen \/ exists e, e ∈ tools /\ server_name e = s.
Proof.
  induction tools as [|e tools IH]; intros seen; simpl.
  - split; [by left|]. intros [?|(e & He & _)]; [done|by apply elem_of_nil in He].
  - rewrite IH. case_bool_decide as Hseen.
    + split.
      * intros [?|(e' & He' & Hs)]; [by left|]. right. exists e'. split; [by right|done].
      * intros [?|(e' & He' & Hs)]; [by left|].
        apply elem_of_cons in He' as [-> |He']; [left; by rewrite <- Hs|].
        right. by exists e'.
    + rewrite elem_of_app, list_elem_of_singleton. split.
      * intros [[?| ->]|(e' & He' & Hs)]; [by left| |].
        -- right. exists e. split; [by left|done].
        -- right. exists e'. split; [by right|done].
      * intros [?|(e' & He' & Hs)]; [by left; left|].
        apply elem_of_cons in He' as [-> |He']; [left; right; done|].
        right. by exists e'.
Qed.

Lemma servers_loop_NoDup (tools : list entry) : forall seen,
  NoDup seen -> NoDup (servers_loop tools seen).
Proof.
  induction tools as [|e tools IH]; intros seen Hseen; simpl; [done|].
  apply IH. case_bool_decide as Hin; [done|].
  apply NoDup_app. split; [done|]. split; [|apply NoDup_singleton].
  intros x Hx Hx'. apply list_elem_of_singleton in Hx' as ->. done.
Qed.

(** The servers seen in a batch of entries that all belong to one server. *)
Lemma servers_loop_batch (server : string) (session : client)
      (mcp_tools : list MCPAgentTool) (seen : list string) :
  servers_loop (map (make_entry server session) mcp_tools) seen
  = match mcp_tools with
    | [] => seen
    | _ => if bool_decide (server ∈ seen) then seen else (seen ++ [server])%list
    end.
Proof.
  destruct mcp_tools as [|t rest]; [done|]. simpl.
  assert (Hrest : forall seen', server ∈ seen' ->
            servers_loop (map (make_entry server session) rest) seen' = seen').
  { induction rest as [|u rest IH]; intros seen' Hin; simpl; [done|].
    rewrite bool_decide_true by done. by apply IH. }
  case_bool_decide as Hin.
  - by apply Hrest.
  - apply Hrest. apply elem_of_app. right. apply list_elem_of_here.
Qed.

(** X3. [servers()] lists each server that owns an entry once, in the order
    in which the servers were first seen: registering a batch of tools adds
    the server's name at the end when the batch is not empty and the name
    is new, and changes nothing otherwise. *)
Theorem servers_first_seen_order
        (self : MCPToolRegistry) (server : string) (session : client)
        (mcp_tools : list MCPAgentTool) :
  NoDup (servers self)
  /\ (forall s, s ∈ servers self <-> exists e, e ∈ all_tools self /\ server_name e = s)
  /\ servers (register self server session mcp_tools).1
     = match mcp_tools with
       | [] => servers self
       | _ => if bool_decide (server ∈ servers self) then servers self
              else (servers self ++ [server])%list
       end.
Proof.
  unfold servers, all_tools. split; [|split].
  - apply servers_loop_NoDup, NoDup_nil_2.
  - intros s. rewrite servers_loop_elem. split.
    + intros [H|H]; [by apply elem_of_nil in H|done].
    + intros H. by right.
  - unfold register. rewrite register_loop_tools, servers_loop_app.
    apply servers_loop_batch.
Qed.

(* --------------------------------------------------------------------- *)
(** *** The summary for the prompt *)








Lemma str_prefix_length (n : nat) (s : string) : (String.length (prefix n s) <= n)%nat.
Proof.
  revert s. induction n as [|n IH]; intros [|c s]; simpl; try lia.
  specialize (IH s). lia.
Qed.



(** X20. What [register] stores for a tool, read back through [get]: the
    description of the tool's spec, or the empty string when the spec has
    none; the input schema, unwrapped when it is held under a "json" key,
    the empty dict when the spec has none; the server's name and session
    as given. *)
Theorem register_stores_spec_fields
        (self : MCPToolRegistry) (server : string) (session : client)
        (pre post : list MCPAgentTool) (t : MCPAgentTool) :
  tool_name t ∉ map tool_name post ->
  let registry := (register self server session (pre ++ t :: post)).1 in
  exists e,
    get registry (tool_name t) = Some e
    /\ description e
       = match spec_description (tool_spec t) with Some text => text | None => "" end
    /\ input_schema e
       = match spec_inputSchema (tool_spec t) with
         | None => JObj []
         | Some raw =>
             match schema_get (Json.codepoints "json") raw with
             | Some inner => inner
             | None => JObj raw
             end
         end
    /\ server_name e = server /\ started_client e = session.
Proof.
  intros Hlast registry. exists (make_entry server session t).
  split.
  - unfold registry, register, get. by apply register_loop_index_last.
  - unfold make_entry. simpl.
    destruct (spec_description (tool_spec t)), (spec_inputSchema (tool_spec t)); done.
Qed.

Lemma register_stores_spec_fields_witness :
  let wrapped :=
    {| tool_name := "get_issue";
       tool_spec := {| spec_description := None;
                       spec_inputSchema :=
                         Some [(Json.codepoints "json",
                                JObj [(Json.codepoints "type",
                                       JStr (Json.codepoints "object"))])] |} |} in
  exists e,
    get (register init "Jira" 1 [wrapped]).1 "get_issue" = Some e
    /\ description e = ""
    /\ input_schema e
       = JObj [(Json.codepoints "type", JStr (Json.codepoints "object"))].
Proof.
  intros wrapped.
  destruct (register_stores_spec_fields init "Jira" 1 [] [] wrapped)
    as (e & Hget & Hdescr & Hschema & _).
  - apply not_elem_of_nil.
  - exists e. split; [exact Hget|]. split; [exact Hdescr|]. exact Hschema.
Defined.

(* ===================================================================== *)
(** ** More on the search *)
(* ===================================================================== *)

Lemma score_positive_iff (words : gset string) (e : entry) :
  (0 < score words e)%Q <-> words ∩ tokens (name e ++ " " ++ description e) <> ∅.
Proof.
  unfold score, Qlt. simpl. rewrite Z.mul_1_r.
  split.
  - intros Hpos Hempty. rewrite Hempty, size_empty in Hpos. simpl in Hpos. lia.
  - intros Hne.
    assert (size (words ∩ tokens (name e ++ " " ++ description e)) <> 0%nat); [|lia].
    apply size_non_empty_iff. intros H. apply Hne. by apply leibniz_equiv.
Qed.

Lemma score_range (words : gset string) (e : entry) :
  words <> ∅ -> (0 <= score words e)%Q /\ (score words e <= 1)%Q.
Proof.
  intros Hne.
  assert (Hsize : size words <> 0%nat).
  { apply size_non_empty_iff. intros H. apply Hne. by apply leibniz_equiv. }
  assert (Hle : (size (words ∩ tokens (name e ++ " " ++ description e)) <= size words)%nat).
  { apply subseteq_size. set_solver. }
  unfold score, Qle. simpl. split; [lia|].
  rewrite Z.mul_1_r, Z.mul_1_l.
  destruct (size words) as [|n]; [done|]. rewrite <- Pos.of_nat_succ. lia.
Qed.

Lemma score_full_iff (words : gset string) (e : entry) :
  words <> ∅ ->
  (score words e == 1)%Q <-> words ⊆ tokens (name e ++ " " ++ description e).
Proof.
  intros Hne.
  assert (Hsize : size words <> 0%nat).
  { apply size_non_empty_iff. intros H. apply Hne. by apply leibniz_equiv. }
  unfold score, Qeq. simpl. rewrite Z.mul_1_r, Z.mul_1_l.
  assert (Hpos : Z.pos (Pos.of_nat (size words)) = Z.of_nat (size words)).
  { destruct (size words) as [|n]; [done|]. rewrite <- Pos.of_nat_succ. lia. }
  rewrite Hpos. split.
  - intros Heq.
    assert (Hsame : words ∩ tokens (name e ++ " " ++ description e) ≡ words).
    { apply set_subseteq_size_equiv; [set_solver|lia]. }
    set_solver.
  - intros Hsub. f_equal. f_equal. apply leibniz_equiv. set_solver.
Qed.

Lemma slice_to_length_le {A} (k : Z) (l : list A) :
  (length (slice_to k l) <= length l)%nat
  /\ ((0 <= k)%Z -> (length (slice_to k l) <= Z.to_nat k)%nat).
Proof.
  unfold slice_to. destruct (0 <=? k)%Z eqn:Hk; rewrite length_take; split; lia.
Qed.

Lemma slice_to_all {A} (k : Z) (l : list A) :
  (Z.of_nat (length l) <= k)%Z -> slice_to k l = l.
Proof.
  intros Hk. rewrite slice_to_nonneg by lia. apply take_ge. lia.
Qed.

(** The ranking of a query with tokens: what is in it, and that it is
    sorted. *)
Lemma ranked_elem (words : gset string) (tools : list entry) (e : entry) :
  e ∈ map snd (sort_reverse (scored_of words tools))
  <-> e ∈ tools /\ (0 < score words e)%Q.
Proof.
  rewrite (Permutation_map snd (sort_reverse_perm _)), map_snd_scored_of.
  by rewrite list_elem_of_In, filter_In, positive_spec, <- list_elem_of_In.
Qed.

Lemma ranked_sorted (words : gset string) (tools : list entry) :
  StronglySorted (fun a b => (score words b <= score words a)%Q)
                 (map snd (sort_reverse (scored_of words tools))).
Proof.
  apply keyed_sorted; [|apply sort_reverse_sorted].
  unfold keyed. eapply Permutation_Forall; [symmetry; apply sort_reverse_perm|].
  apply scored_of_keyed.
Qed.

Lemma ranked_length (words : gset string) (tools : list entry) :
  (length (map snd (sort_reverse (scored_of words tools))) <= length tools)%nat.
Proof.
  rewrite (Permutation_length (Permutation_map snd (sort_reverse_perm _))).
  rewrite map_snd_scored_of. apply List.filter_length_le.
Qed.

Lemma search_elem_registered (self : MCPToolRegistry) (query : string) (top_k : Z)
      (e : entry) :
  e ∈ search self query top_k -> e ∈ all_tools self.
Proof.
  unfold all_tools. destruct (decide (tokens query = ∅)) as [Hempty|Hne].
  - unfold search. destruct (decide (tokens query = ∅)); [|done]. apply slice_to_sublist.
  - rewrite search_ranked by done. intros He. apply slice_to_sublist in He.
    by apply ranked_elem in He as [? _].
Qed.

Lemma search_length (self : MCPToolRegistry) (query : string) (top_k : Z) :
  (length (search self query top_k) <= total self)%nat
  /\ ((0 <= top_k)%Z -> (length (search self query top_k) <= Z.to_nat top_k)%nat).
Proof.
  unfold total. destruct (decide (tokens query = ∅)) as [Hempty|Hne].
  - unfold search. destruct (decide (tokens query = ∅)); [|done]. apply slice_to_length_le.
  - rewrite search_ranked by done.
    pose proof (slice_to_length_le top_k
                  (map snd (sort_reverse (scored_of (tokens query) (_tools self)))))
      as [Hall Hk].
    pose proof (ranked_length (tokens query) (_tools self)) as Hlen.
    split; [lia|done].
Qed.

(** X5. Whatever the query, [search] answers with registered entries only
    and with no more of them than there are; for [top_k >= 0] it answers
    with at most [top_k] entries. *)
Theorem search_bounds (self : MCPToolRegistry) (query : string) (top_k : Z) :
  (forall e, e ∈ search self query top_k -> e ∈ all_tools self)
  /\ (length (search self query top_k) <= total self)%nat
  /\ ((0 <= top_k)%Z -> (length (search self query top_k) <= Z.to_nat top_k)%nat).
Proof.
  split; [intros e; apply search_elem_registered|apply search_length].
Qed.

(** X6. The score of an entry for a query with tokens lies between 0 and 1;
    it is positive exactly when the entry's text shares a token with the
    query, and 1 exactly when it holds every token of the query. *)
Theorem score_meaning (query : string) (e : entry) :
  tokens query <> ∅ ->
  let words := tokens query in
  let text := tokens (name e ++ " " ++ description e) in
  (0 <= score words e)%Q /\ (score words e <= 1)%Q
  /\ ((0 < score words e)%Q <-> exists w, w ∈ words /\ w ∈ text)
  /\ ((score words e == 1)%Q <-> forall w, w ∈ words -> w ∈ text).
Proof.
  intros Hne words text.
  destruct (score_range words e Hne) as [H0 H1].
  split; [done|]. split; [done|]. split.
  - rewrite score_positive_iff. fold text. split.
    + intros Hshare. apply set_choose_L in Hshare as [w Hw]. exists w. set_solver.
    + intros (w & Hw & Ht). set_solver.
  - rewrite score_full_iff by done. fold text. set_solver.
Qed.

Lemma score_meaning_witness :
  tokens "list issues" <> ∅
  /\ (score (tokens "list issues")
            (make_entry "Jira" 1%nat (Samples.tool "list_issues" "list jira issues")) == 1)%Q.
Proof.
  assert (Hne : tokens "list issues" <> ∅).
  { intros H. apply (f_equal size) in H. vm_compute in H. discriminate H. }
  split; [exact Hne|].
  destruct (score_meaning "list issues"
              (make_entry "Jira" 1 (Samples.tool "list_issues" "list jira issues")) Hne)
    as (_ & _ & _ & Hfull).
  apply Hfull. intros w Hw.
  assert (Htokens : tokens "list issues" = {["list"; "issues"]}) by (vm_compute; reflexivity).
  rewrite Htokens in Hw.
  assert (Htext : tokens (name (make_entry "Jira" 1
                                  (Samples.tool "list_issues" "list jira issues"))
                          ++ " " ++ description (make_entry "Jira" 1
                                  (Samples.tool "list_issues" "list jira issues")))
                  = {["jira_list_issues"; "list"; "jira"; "issues"]}).
  { apply leibniz_equiv. vm_compute tokens. set_solver. }
  rewrite Htext. set_solver.
Defined.

Lemma StronglySorted_take_of {A} (R : A -> A -> Prop) (n : nat) (l : list A) :
  StronglySorted R l -> StronglySorted R (take n l).
Proof.
  intros Hs. revert n. induction Hs as [|x l Hl IH Hx]; intros [|n]; simpl; try constructor.
  - apply IH.
  - apply Forall_forall. intros y Hy. rewrite Forall_forall in Hx. apply Hx.
    apply elem_of_take in Hy as (i & Hi & _). by eapply list_elem_of_lookup_2.
Qed.

Lemma slice_to_is_take {A} (k : Z) (l : list A) : exists n, slice_to k l = take n l.
Proof. unfold slice_to. destruct (0 <=? k)%Z; eauto. Qed.

(** X7. The answer to a query with tokens is itself in descending order of
    score, and its first entry, when there is one, has the highest score of
    all registered entries. *)
Theorem search_best_first (self : MCPToolRegistry) (query : string) (top_k : Z) :
  tokens query <> ∅ ->
  let words := tokens query in
  StronglySorted (fun a b => (score words b <= score words a)%Q)
                 (search self query top_k)
  /\ (forall e rest,
         search self query top_k = e :: rest ->
         forall e', e' ∈ all_tools self -> (score words e' <= score words e)%Q).
Proof.
  intros Hne words. rewrite search_ranked by done. fold words.
  pose proof (ranked_sorted words (_tools self)) as Hsorted.
  destruct (slice_to_is_take top_k (map snd (sort_reverse (scored_of words (_tools self)))))
    as [n Hn].
  rewrite Hn. split; [by apply StronglySorted_take_of|].
  intros e rest Htake e' He'.
  destruct (map snd (sort_reverse (scored_of words (_tools self)))) as [|x ranked] eqn:Hranked.
  { by rewrite take_nil in Htake. }
  destruct n as [|n]; [discriminate Htake|]. simpl in Htake. injection Htake as -> _.
  assert (Hpos : (0 < score words e)%Q).
  { apply (ranked_elem words (_tools self) e). rewrite Hranked. apply list_elem_of_here. }
  destruct (Qlt_le_dec 0 (score words e')) as [Hpos'|Hle].
  - assert (Hin : e' ∈ e :: ranked).
    { rewrite <- Hranked. apply ranked_elem. done. }
    apply elem_of_cons in Hin as [-> |Hin]; [apply Qle_refl|].
    apply StronglySorted_inv in Hsorted as [_ Hall].
    rewrite Forall_forall in Hall. by apply Hall.
  - apply Qle_trans with 0%Q; [done|]. by apply Qlt_le_weak.
Qed.

Lemma search_best_first_witness :
  tokens "github issues please" <> ∅
  /\ map name (search Samples.catalog "github issues please" 5)
     = ["github_list_issues"; "jira_list_issues"]
  /\ forall e', e' ∈ all_tools Samples.catalog ->
       (score (tokens "github issues please") e'
        <= score (tokens "github issues please")
                 (make_entry "GitHub" 2%nat (Samples.tool "list_issues" "List GitHub issues")))%Q.
Proof.
  assert (Hne : tokens "github issues please" <> ∅).
  { intros H. apply (f_equal size) in H. vm_compute in H. discriminate H. }
  split; [exact Hne|]. split; [vm_compute; reflexivity|].
  destruct (search_best_first Samples.catalog "github issues please" 5 Hne) as [_ Hbest].
  apply (Hbest _ [make_entry "Jira" 1%nat (Samples.tool "list_issues" "list jira issues")]).
  vm_compute. reflexivity.
Defined.

(** X8. With [top_k] at least the number of registered tools, the answer to
    a query with tokens holds exactly the registered entries whose text
    shares a token with the query, each as often as it is registered. *)
Theorem search_finds_every_match (self : MCPToolRegistry) (query : string) (top_k : Z) :
  tokens query <> ∅ ->
  (Z.of_nat (total self) <= top_k)%Z ->
  let words := tokens query in
  Permutation (search self query top_k) (List.filter (positive words) (all_tools self))
  /\ (forall e,
         e ∈ search self query top_k
         <-> e ∈ all_tools self
             /\ exists w, w ∈ words /\ w ∈ tokens (name e ++ " " ++ description e)).
Proof.
  intros Hne Hk words. unfold all_tools, total in *.
  rewrite search_ranked by done. fold words.
  rewrite slice_to_all.
  2:{ pose proof (ranked_length words (_tools self)). lia. }
  split.
  - rewrite (Permutation_map snd (sort_reverse_perm _)). by rewrite map_snd_scored_of.
  - intros e. rewrite ranked_elem, score_positive_iff. split.
    + intros [Hin Hshare]. split; [done|].
      apply set_choose_L in Hshare as [w Hw]. exists w. set_solver.
    + intros [Hin (w & Hw & Ht)]. split; [done|]. set_solver.
Qed.

Lemma search_finds_every_match_witness :
  tokens "issue" <> ∅ /\ (Z.of_nat (total Samples.catalog) <= 4)%Z
  /\ (make_entry "Jira" 1%nat (Samples.tool "get_issue" "Get one issue by key"))
     ∈ search Samples.catalog "issue" 4.
Proof.
  assert (Hne : tokens "issue" <> ∅).
  { intros H. apply (f_equal size) in H. vm_compute in H. discriminate H. }
  assert (Hk : (Z.of_nat (total Samples.catalog) <= 4)%Z) by (vm_compute; discriminate).
  split; [exact Hne|]. split; [exact Hk|].
  destruct (search_finds_every_match Samples.catalog "issue" 4 Hne Hk) as [_ Hmem].
  apply Hmem. split.
  - apply elem_of_list_here || (right; apply list_elem_of_here).
  - exists "issue". split.
    + assert (H : tokens "issue" = {["issue"]}) by (vm_compute; reflexivity).
      rewrite H. set_solver.
    + assert (H : tokens (name (make_entry "Jira" 1%nat
                                  (Samples.tool "get_issue" "Get one issue by key"))
                          ++ " " ++ description (make_entry "Jira" 1%nat
                                  (Samples.tool "get_issue" "Get one issue by key")))
                  = {["jira_get_issue"; "get"; "one"; "issue"; "by"; "key"]}).
      { apply leibniz_equiv. vm_compute tokens. set_solver. }
      rewrite H. set_solver.
Defined.

(* --------------------------------------------------------------------- *)
(** *** Tokens *)

Lemma lower_char_idempotent (c : ascii) : lower_char (lower_char c) = lower_char c.
Proof. destruct c as [[] [] [] [] [] [] [] []]; vm_compute; reflexivity. Qed.

Lemma lower_idempotent (s : string) : lower (lower s) = lower s.
Proof.
  induction s as [|c s IH]; simpl; [done|]. by rewrite lower_char_idempotent, IH.
Qed.

Lemma lower_append (a b : string) : lower (a ++ b) = lower a ++ lower b.
Proof.
  induction a as [|c a IH]; [done|]. rewrite append_cons. simpl.
  by rewrite IH, append_cons.
Qed.

(** X9. The search does not see letter case: a query and an entry's name or
    description can be replaced by their lower-case forms without changing
    any score or answer. *)
Theorem search_ignores_case (self : MCPToolRegistry) (query : string) (top_k : Z) :
  tokens (lower query) = tokens query
  /\ search self (lower query) top_k = search self query top_k
  /\ (forall words e e',
         lower (name e') = lower (name e) ->
         lower (description e') = lower (description e) ->
         score words e' = score words e).
Proof.
  assert (Htokens : tokens (lower query) = tokens query).
  { unfold tokens. by rewrite lower_idempotent. }
  split; [exact Htokens|]. split.
  - unfold search. by rewrite Htokens.
  - intros words e e' Hname Hdescr. unfold score, tokens.
    rewrite !lower_append, Hname, Hdescr. done.
Qed.

Lemma findall_words_from_cur (cur s : string) :
  cur <> "" -> findall_words_from cur s <> [].
Proof.
  revert cur. induction s as [|c s IH]; intros cur Hcur; simpl.
  - by destruct cur.
  - destruct (is_word c).
    + apply IH. destruct cur; [done|]. rewrite append_cons. discriminate.
    + destruct cur; [done|]. discriminate.
Qed.

Lemma findall_words_from_word (a b : string) (c : ascii) : forall cur,
  is_word c = true -> findall_words_from cur (a ++ String c b) <> [].
Proof.
  induction a as [|d a IH]; intros cur Hc.
  - simpl. rewrite Hc. apply findall_words_from_cur.
    destruct cur; [discriminate|]. rewrite append_cons. discriminate.
  - rewrite append_cons. simpl. destruct (is_word d); [by apply IH|].
    intros H. apply app_eq_nil in H as [_ H]. by apply (IH "" Hc).
Qed.

(** What [findall] gives on two texts joined by a character that is not a
    word character. *)
Lemma findall_words_from_split (a b : string) (c : ascii) : forall cur,
  is_word c = false ->
  findall_words_from cur (a ++ String c b)
  = (findall_words_from cur a ++ findall_words_from "" b)%list.
Proof.
  induction a as [|d a IH]; intros cur Hc.
  - simpl. by rewrite Hc.
  - rewrite append_cons. simpl. destruct (is_word d); [by apply IH|].
    rewrite IH by done. by rewrite app_assoc.
Qed.

Lemma tokens_of_name_and_description (e : entry) :
  tokens (name e ++ " " ++ description e) = tokens (name e) ∪ tokens (description e).
Proof.
  unfold tokens, findall_words. rewrite !lower_append.
  change (lower " " ++ lower (description e)) with (String " " (lower (description e))).
  rewrite findall_words_from_split by reflexivity.
  by rewrite list_to_set_app_L.
Qed.

Lemma tokens_of_qualified_name (server raw_name : string) :
  tokens (lower server ++ "_" ++ raw_name) <> ∅.
Proof.
  unfold tokens, findall_words. rewrite !lower_append.
  change (lower "_" ++ lower raw_name) with (String "_" (lower raw_name)).
  pose proof (findall_words_from_word (lower (lower server)) (lower raw_name) "_" ""
                eq_refl) as Hne.
  destruct (findall_words_from "" _) as [|w ws]; [done|].
  simpl. set_solver.
Qed.

(** X10. Searching for the qualified name of a registered tool gives that
    tool the full score 1, so that it is in the answer whenever [top_k] is
    at least the number of registered tools. *)
Theorem search_by_qualified_name
        (calls : list registration) (c : registration) (t : MCPAgentTool) (top_k : Z) :
  c ∈ calls -> t ∈ reg_tools c ->
  let registry := register_all init calls in
  let e := make_entry (reg_server c) (reg_client c) t in
  tokens (name e) <> ∅
  /\ (score (tokens (name e)) e == 1)%Q
  /\ ((Z.of_nat (total registry) <= top_k)%Z -> e ∈ search registry (name e) top_k).
Proof.
  intros Hc Ht registry e.
  assert (Hne : tokens (name e) <> ∅) by apply tokens_of_qualified_name.
  assert (Hone : (score (tokens (name e)) e == 1)%Q).
  { apply score_full_iff; [done|]. rewrite tokens_of_name_and_description. set_solver. }
  split; [done|]. split; [done|].
  intros Hk. rewrite search_ranked by done. rewrite slice_to_all.
  2:{ pose proof (ranked_length (tokens (name e)) (_tools registry)).
      unfold total in Hk. lia. }
  apply ranked_elem. split; [by apply entry_registered|].
  rewrite Hone. reflexivity.
Qed.

Lemma search_by_qualified_name_witness :
  Samples.github ∈ [Samples.jira; Samples.github]
  /\ (make_entry "GitHub" 2%nat (Samples.tool "list_prs" "list pull requests"))
     ∈ search Samples.catalog "github_list_prs" 4.
Proof.
  assert (Hc : Samples.github ∈ [Samples.jira; Samples.github]).
  { apply list_elem_of_further, list_elem_of_here. }
  assert (Ht : Samples.tool "list_prs" "list pull requests" ∈ reg_tools Samples.github).
  { apply list_elem_of_further, list_elem_of_here. }
  split; [exact Hc|].
  destruct (search_by_qualified_name [Samples.jira; Samples.github] Samples.github
              (Samples.tool "list_prs" "list pull requests") 4 Hc Ht) as (_ & _ & Hin).
  apply Hin. vm_compute. discriminate.
Defined.

Lemma search_bounds_witness :
  (length (search Samples.catalog "issues" 1) <= 1)%nat
  /\ forall e, e ∈ search Samples.catalog "issues" 1 -> e ∈ all_tools Samples.catalog.
Proof.
  destruct (search_bounds Samples.catalog "issues" 1) as (Hin & _ & Hk).
  split; [apply Hk; lia|exact Hin].
Defined.

Lemma search_ignores_case_witness :
  search Samples.catalog (lower "List ISSUES") 5 = search Samples.catalog "List ISSUES" 5
  /\ score (tokens "github")
           (make_entry "GitHub" 2%nat (Samples.tool "list_issues" "List GitHub issues"))
     = score (tokens "github")
             (make_entry "github" 2%nat (Samples.tool "list_issues" "list github issues")).
Proof.
  destruct (search_ignores_case Samples.catalog "List ISSUES" 5) as (_ & Hsearch & Hscore).
  split; [exact Hsearch|]. apply Hscore; reflexivity.
Defined.

(* ===================================================================== *)
(** ** More on the two tools *)
(* ===================================================================== *)

Lemma append_empty_r (a : string) : a ++ "" = a.
Proof. induction a as [|c a IH]; [done|]. by rewrite append_cons, IH. Qed.

Lemma rev_append (a b : string) : PyStr.rev (a ++ b) = PyStr.rev b ++ PyStr.rev a.
Proof.
  induction a as [|c a IH].
  - simpl. by rewrite append_empty_r.
  - rewrite append_cons. simpl. by rewrite IH, append_assoc.
Qed.

Lemma rev_involutive (s : string) : PyStr.rev (PyStr.rev s) = s.
Proof.
  induction s as [|c s IH]; [done|]. simpl. rewrite rev_append, IH. done.
Qed.

Lemma lstrip_idempotent (s : string) : lstrip (lstrip s) = lstrip s.
Proof.
  destruct (lstrip_cases s) as [->|(c & t & -> & Hc)]; [done|]. simpl. by rewrite Hc.
Qed.

Lemma lstrip_snoc (u : string) (c : ascii) :
  is_space c = false -> exists v, lstrip (u ++ String c "") = v ++ String c "".
Proof.
  intros Hc. induction u as [|d u IH].
  - exists "". simpl. by rewrite Hc.
  - rewrite append_cons. simpl. destruct (is_space d); [exact IH|].
    exists (String d u). by rewrite append_cons.
Qed.

Lemma rstrip_keeps_head (c : ascii) (t : string) :
  is_space c = false -> exists w, rstrip (String c t) = String c w.
Proof.
  intros Hc. unfold rstrip. simpl.
  destruct (lstrip_snoc (PyStr.rev t) c Hc) as [v ->].
  exists (PyStr.rev v). by rewrite rev_append.
Qed.

Lemma strip_idempotent (s : string) : strip (strip s) = strip s.
Proof.
  unfold strip.
  assert (Hl : lstrip (rstrip (lstrip s)) = rstrip (lstrip s)).
  { destruct (lstrip_cases s) as [->|(c & t & -> & Hc)]; [done|].
    destruct (rstrip_keeps_head c t Hc) as [w ->]. simpl. by rewrite Hc. }
  rewrite Hl. unfold rstrip at 1 2. by rewrite rev_involutive, lstrip_idempotent.
Qed.

(** X11. Whitespace around the tool name or the query is not seen: both
    tools answer for a name or query as for its stripped form, and the name
    that [call_tool] looks up and passes to the session is the stripped
    one. *)
Theorem tools_ignore_surrounding_whitespace
        (dumps : json -> string) (py : interpreter) (registry : MCPToolRegistry) (world : backend)
        (uuid_hex text : string) (arguments : raw_arguments) (top_k : Z) :
  strip (strip text) = strip text
  /\ call_tool py registry world uuid_hex (strip text) arguments
     = call_tool py registry world uuid_hex text arguments
  /\ find_tool dumps registry (strip text) top_k = find_tool dumps registry text top_k.
Proof.
  pose proof (strip_idempotent text) as Hstrip.
  split; [exact Hstrip|]. split.
  - unfold call_tool. by rewrite Hstrip.
  - unfold find_tool. by rewrite Hstrip.
Qed.

(** X12. [call_tool] calls a session exactly when the stripped name is not
    empty, the arguments decode and the name is a key of the lookup dict,
    and then once; the call goes to the session stored in the entry found,
    with the stripped name, the decoded arguments and an identifier made of
    "optimizer-" and at most 8 characters of the uuid. *)
Theorem call_tool_session_call
        (py : interpreter) (registry : MCPToolRegistry) (world : backend) (uuid_hex tool_name : string)
        (arguments : raw_arguments) :
  let result := call_tool py registry world uuid_hex tool_name arguments in
  (session_calls result.2 <= 1)%nat
  /\ (session_calls result.2 = 1%nat
      <-> strip tool_name <> ""
          /\ (exists args, parse_arguments py arguments = Parsed args)
          /\ is_Some (get registry (strip tool_name)))
  /\ (forall session tool_use_id called args,
         CallToolSync session tool_use_id called args ∈ result.2 ->
         called = strip tool_name
         /\ parse_arguments py arguments = Parsed args
         /\ (exists entry, get registry (strip tool_name) = Some entry
                           /\ session = started_client entry)
         /\ exists suffix, tool_use_id = "optimizer-" ++ suffix
                           /\ (String.length suffix <= 8)%nat).
Proof.
  intros result. subst result.
  split; [apply call_tool_at_most_one_session_call|].
  destruct (decide (strip tool_name = "")) as [Hblank|Hname].
  { rewrite call_tool_blank_name by done. simpl. split.
    - split; [discriminate|]. intros [? _]. done.
    - intros ???? Hin. by apply elem_of_nil in Hin. }
  destruct (parse_arguments py arguments) as [args|args_str exc|exc] eqn:Hparse.
  2:{ rewrite (call_tool_parse_failure _ _ _ _ _ _ args_str exc) by done. simpl. split.
      - split; [discriminate|]. intros (_ & [args Hargs] & _). discriminate Hargs.
      - intros ???? Hin. by apply elem_of_nil in Hin. }
  2:{ rewrite (call_tool_parse_uncaught _ _ _ _ _ _ exc) by done. simpl. split.
      - split; [discriminate|]. intros (_ & [args Hargs] & _). discriminate Hargs.
      - intros ???? Hin. by apply elem_of_nil in Hin. }
  destruct (get registry (strip tool_name)) as [entry|] eqn:Hget.
  - rewrite (call_tool_dispatch _ _ _ _ _ _ args entry) by done. cbv zeta. cbn [fst snd].
    split.
    + split; [|reflexivity]. intros _. split; [done|]. split; [by exists args|by exists entry].
    + intros session tool_use_id called args' Hin.
      apply elem_of_cons in Hin as [Hin|Hin]; [discriminate Hin|].
      apply list_elem_of_singleton in Hin. injection Hin as -> -> -> ->.
      split; [done|]. split; [done|]. split; [by exists entry|].
      exists (prefix 8 uuid_hex). split; [done|]. apply str_prefix_length.
  - rewrite (call_tool_unknown _ _ _ _ _ _ args) by done. cbn [fst snd]. split.
    + split; [discriminate|]. intros (_ & _ & [entry Hentry]). discriminate Hentry.
    + intros ???? Hin.
      apply elem_of_cons in Hin as [Hin|Hin]; [discriminate Hin|].
      apply list_elem_of_singleton in Hin. discriminate Hin.
Qed.

Lemma call_tool_session_call_witness :
  CallToolSync 1 "optimizer-01234567" "get_issue" (JObj [])
  ∈ (call_tool Samples.py Samples.catalog (Samples.answers Samples.ok_result) Samples.uuid_hex
               " get_issue " (ArgStr "{}")).2
  /\ parse_arguments Samples.py (ArgStr "{}") = Parsed (JObj []).
Proof.
  assert (Hin : CallToolSync 1 "optimizer-01234567" "get_issue" (JObj [])
                ∈ (call_tool Samples.py Samples.catalog (Samples.answers Samples.ok_result)
                             Samples.uuid_hex " get_issue " (ArgStr "{}")).2).
  { vm_compute. apply list_elem_of_further, list_elem_of_here. }
  split; [exact Hin|].
  destruct (call_tool_session_call Samples.py Samples.catalog (Samples.answers Samples.ok_result)
              Samples.uuid_hex " get_issue " (ArgStr "{}")) as (_ & _ & Hcall).
  exact (proj1 (proj2 (Hcall _ _ _ _ Hin))).
Defined.

(** What the first step of [call_tool] lets escape: the [AttributeError]
    of [strip] on a truthy payload that is no string, and what [json.loads]
    raises at a limit of the interpreter. *)
Lemma parse_arguments_uncaught (py : interpreter) (arguments : raw_arguments)
      (exc : exception) :
  parse_arguments py arguments = Uncaught exc ->
  (exists type_name, arguments = ArgOther type_name true /\ exc = no_strip type_name)
  \/ (exists text,
         Json.loads py text = Json.OtherError exc
         /\ (exc_type exc = "RecursionError" \/ exc_type exc = "ValueError")).
Proof.
  assert (Hloads : forall text,
             match Json.loads py text with
             | Json.Decoded args => Parsed args
             | Json.DecodeError e => Invalid text e
             | Json.OtherError e => Uncaught e
             end = Uncaught exc ->
             exists text,
               Json.loads py text = Json.OtherError exc
               /\ (exc_type exc = "RecursionError" \/ exc_type exc = "ValueError")).
  { intros text H. exists text.
    destruct (Json.loads py text) as [args|e|e] eqn:Hl; try discriminate H.
    injection H as ->. split; [done|].
    apply loads_other_error in Hl as [(c & -> & _)|(n & -> & _)]; [by left|by right]. }
  unfold parse_arguments. destruct arguments as [d|s| |type_name [|]].
  - discriminate.
  - intros H. right. by apply Hloads in H.
  - intros H. right. by apply Hloads in H.
  - intros [= <-]. left. by exists type_name.
  - intros H. right. by apply Hloads in H.
Qed.

(** X13. What leaves [call_tool] as an exception, for a tool name that is a
    string and a session that answers with plain data.  There are four
    places, and no other: [strip] on a truthy payload that is neither a
    string nor a dict ([AttributeError]); [json.loads] at a limit of the
    interpreter ([RecursionError], [ValueError]), which
    [except json.JSONDecodeError] does not catch; a session that raises
    what is no [Exception], which [except Exception] does not catch; and
    the loop over the content blocks, which is outside the [try], on a dict
    result whose content is not iterable ([TypeError]).  In every other
    case [call_tool] returns a text. *)
Theorem call_tool_raises_exactly
        (py : interpreter) (registry : MCPToolRegistry) (world : backend)
        (uuid_hex tool_name : string)
        (arguments : raw_arguments) (exc_type_name : string) :
  ((call_tool py registry world uuid_hex tool_name arguments).1 = Raised exc_type_name
   <-> strip tool_name <> ""
       /\ ((exists exc,
               parse_arguments py arguments = Uncaught exc
               /\ exc_type_name = exc_type exc)
           \/ (exists args entry,
                  parse_arguments py arguments = Parsed args
                  /\ get registry (strip tool_name) = Some entry
                  /\ let answer :=
                       world (started_client entry) ("optimizer-" ++ prefix 8 uuid_hex)
                             (strip tool_name) args in
                     (exists exc,
                         answer = inl exc /\ is_Exception exc = false
                         /\ exc_type_name = exc_type exc)
                     \/ (exists d,
                            answer = inr (PyDict d)
                            /\ Py.iterate (Py.get "content" (PyList []) d) = None
                            /\ exc_type_name = "TypeError"))))
  /\ (forall exc,
         parse_arguments py arguments = Uncaught exc ->
         (exc_type exc = "AttributeError"
          /\ exists type_name, arguments = ArgOther type_name true)
         \/ ((exc_type exc = "RecursionError" \/ exc_type exc = "ValueError")
             /\ exists text, Json.loads py text = Json.OtherError exc))
  /\ (forall type_name,
         strip tool_name <> "" ->
         call_tool py registry world uuid_hex tool_name (ArgOther type_name true)
         = (Raised "AttributeError", [])).
Proof.
  split; [|split].
  - split.
    + intros Hraised.
      destruct (decide (strip tool_name = "")) as [Hblank|Hname].
      { rewrite call_tool_blank_name in Hraised by done. discriminate Hraised. }
      split; [done|].
      destruct (parse_arguments py arguments) as [args|args_str exc|exc] eqn:Hparse.
      2:{ rewrite (call_tool_parse_failure _ _ _ _ _ _ args_str exc) in Hraised by done.
          discriminate Hraised. }
      2:{ rewrite (call_tool_parse_uncaught _ _ _ _ _ _ exc) in Hraised by done.
          injection Hraised as <-. left. by exists exc. }
      destruct (get registry (strip tool_name)) as [entry|] eqn:Hget.
      2:{ rewrite (call_tool_unknown _ _ _ _ _ _ args) in Hraised by done.
          discriminate Hraised. }
      rewrite (call_tool_dispatch _ _ _ _ _ _ args entry) in Hraised by done.
      cbv zeta in Hraised. cbn [fst snd] in Hraised.
      right. exists args, entry. split; [done|]. split; [done|]. cbv zeta.
      destruct (world _ _ _ _) as [exc|result] eqn:Hworld.
      * destruct (is_Exception exc) eqn:Hexc; [discriminate Hraised|].
        injection Hraised as <-. left. by exists exc.
      * unfold extract_text in Hraised.
        destruct result as [| | | | |d|]; try discriminate Hraised.
        destruct (Py.iterate _) as [blocks|] eqn:Hiter.
        { destruct (Py.eq_str _ _); discriminate Hraised. }
        injection Hraised as <-. right. by exists d.
    + intros (Hname & [(exc & Hparse & ->)|(args & entry & Hparse & Hget & Hanswer)]).
      * by rewrite (call_tool_parse_uncaught _ _ _ _ _ _ exc).
      * rewrite (call_tool_dispatch _ _ _ _ _ _ args entry) by done.
        cbv zeta in *. cbn [fst snd].
        destruct Hanswer as [(exc & -> & Hexc & ->)|(d & -> & Hiter & ->)].
        -- by rewrite Hexc.
        -- unfold extract_text. by rewrite Hiter.
  - intros exc Hparse.
    apply parse_arguments_uncaught in Hparse as [(t & -> & ->)|(text & Hloads & Htype)].
    + left. split; [done|]. by exists t.
    + right. split; [done|]. by exists text.
  - intros type_name Hname.
    by rewrite (call_tool_parse_uncaught _ _ _ _ _ _ (no_strip type_name)).
Qed.

(** The four places, one call each: an integer payload, 901 opening
    brackets, an interrupted session, and a result whose content is
    [None]. *)
Lemma call_tool_raises_exactly_witness :
  strip "get_issue" <> ""
  /\ call_tool Samples.py Samples.catalog (Samples.answers Samples.ok_result)
               Samples.uuid_hex "get_issue" (ArgOther "int" true)
     = (Raised "AttributeError", [])
  /\ (call_tool Samples.py Samples.catalog (Samples.answers Samples.ok_result)
                Samples.uuid_hex "get_issue" (ArgStr (Samples.copies 901 "["))).1
     = Raised "RecursionError"
  /\ (call_tool Samples.py Samples.catalog (Samples.fails Samples.interrupted)
                Samples.uuid_hex "get_issue" (ArgStr "{}")).1
     = Raised "KeyboardInterrupt"
  /\ (call_tool Samples.py Samples.catalog (Samples.answers (PyDict [("content", PyNone)]))
                Samples.uuid_hex "get_issue" (ArgStr "{}")).1
     = Raised "TypeError".
Proof.
  assert (Hname : strip "get_issue" <> "") by (vm_compute; discriminate).
  assert (Hparse : parse_arguments Samples.py (ArgStr "{}") = Parsed (JObj []))
    by (vm_compute; reflexivity).
  assert (Hdeep : parse_arguments Samples.py (ArgStr (Samples.copies 901 "["))
                  = Uncaught (Json.recursion_error "array"))
    by (vm_compute; reflexivity).
  pose (entry := make_entry "Jira" 1 (Samples.tool "get_issue" "Get one issue by key")).
  split; [exact Hname|]. split; [|split; [|split]].
  - exact (proj2 (proj2 (call_tool_raises_exactly Samples.py Samples.catalog
                           (Samples.answers Samples.ok_result) Samples.uuid_hex
                           "get_issue" ArgNone "")) "int" Hname).
  - apply call_tool_raises_exactly. split; [exact Hname|]. left.
    exists (Json.recursion_error "array"). by split.
  - apply call_tool_raises_exactly. split; [exact Hname|]. right.
    exists (JObj []), entry. split; [exact Hparse|]. split; [reflexivity|].
    left. exists Samples.interrupted. by split.
  - apply call_tool_raises_exactly. split; [exact Hname|]. right.
    exists (JObj []), entry. split; [exact Hparse|]. split; [reflexivity|].
    right. exists [("content", PyNone)]. by split.
Defined.

Lemma extract_text_dict_error (tool_name : string) (d : list (string * pyvalue))
      (blocks : list pyvalue) :
  Py.iterate (Py.get "content" (PyList []) d) = Some blocks ->
  Py.eq_str (Py.get "status" (PyStr "success") d) "error" = true ->
  extract_text tool_name (PyDict d)
  = Returned
      (tool_error_message tool_name
         match map Py.str (List.filter Py.truthy (map block_text blocks)) with
         | [] => Py.str (PyDict d)
         | parts => join nl parts
         end).
Proof.
  intros Hiter Hstatus. unfold extract_text. rewrite Hiter, Hstatus.
  rewrite text_parts_loop_spec, app_nil_l.
  by destruct (map Py.str (List.filter Py.truthy (map block_text blocks))).
Qed.

(** X14. When the session of a registered tool returns a dict with status
    "error", [call_tool] returns "Tool '<name>' returned an error:" and, on
    the next line, the texts of the content blocks joined by newlines, or
    the text of the whole dict when there is none; it is a returned text,
    never the empty-result marker. *)
Theorem call_tool_reported_error
        (py : interpreter) (registry : MCPToolRegistry) (world : backend) (uuid_hex tool_name : string)
        (arguments : raw_arguments) (args : json) (entry : entry)
        (d : list (string * pyvalue)) (blocks : list pyvalue) :
  strip tool_name <> "" ->
  parse_arguments py arguments = Parsed args ->
  get registry (strip tool_name) = Some entry ->
  world (started_client entry) ("optimizer-" ++ prefix 8 uuid_hex) (strip tool_name) args
  = inr (PyDict d) ->
  Py.iterate (Py.get "content" (PyList []) d) = Some blocks ->
  Py.get "status" (PyStr "success") d = PyStr "error" ->
  let texts := map Py.str (List.filter Py.truthy (map block_text blocks)) in
  let output := match texts with [] => Py.str (PyDict d) | _ => join nl texts end in
  let result := call_tool py registry world uuid_hex tool_name arguments in
  result.1 = Returned ("Tool '" ++ strip tool_name ++ "' returned an error:" ++ nl ++ output)
  /\ result.1 <> Returned empty_result.
Proof.
  intros Hname Hparse Hget Hworld Hiter Hstatus texts output result.
  assert (Hres : result.1 = Returned ("Tool '" ++ strip tool_name
                                        ++ "' returned an error:" ++ nl ++ output)).
  { subst result.
    rewrite (call_tool_dispatch py registry world uuid_hex tool_name arguments args entry)
      by done.
    cbv zeta. rewrite Hworld. cbn [fst snd].
    rewrite (extract_text_dict_error _ d blocks); [|done|by rewrite Hstatus].
    unfold tool_error_message. subst output texts.
    by destruct (map Py.str (List.filter Py.truthy (map block_text blocks))). }
  split; [exact Hres|]. rewrite Hres. unfold empty_result.
  rewrite append_cons. discriminate.
Qed.

Lemma call_tool_reported_error_witness :
  (call_tool Samples.py Samples.catalog
             (Samples.answers (PyDict [("status", PyStr "error");
                                       ("content", PyList [PyDict [("text", PyStr "no such issue")]])]))
             Samples.uuid_hex "get_issue" (ArgStr "{}")).1
  = Returned ("Tool 'get_issue' returned an error:" ++ nl ++ "no such issue").
Proof.
  assert (Hname : strip "get_issue" <> "") by (vm_compute; discriminate).
  assert (Hparse : parse_arguments Samples.py (ArgStr "{}") = Parsed (JObj []))
    by (vm_compute; reflexivity).
  exact (proj1 (call_tool_reported_error Samples.py Samples.catalog _ Samples.uuid_hex
                  "get_issue" (ArgStr "{}") (JObj [])
                  (make_entry "Jira" 1 (Samples.tool "get_issue" "Get one issue by key"))
                  [("status", PyStr "error");
                   ("content", PyList [PyDict [("text", PyStr "no such issue")]])]
                  [PyDict [("text", PyStr "no such issue")]]
                  Hname Hparse eq_refl eq_refl eq_refl eq_refl)).
Defined.

(** X15. When the session of a registered tool returns something that is
    not a dict, [call_tool] returns its [str()], or the marker
    "(Tool returned an empty result)" when the value is falsy: the marker
    for [None], the empty string, 0 and the empty list, and a string that
    is not empty as it is. *)
Theorem call_tool_plain_result
        (py : interpreter) (registry : MCPToolRegistry) (world : backend) (uuid_hex tool_name : string)
        (arguments : raw_arguments) (args : json) (entry : entry) (value : pyvalue) :
  strip tool_name <> "" ->
  parse_arguments py arguments = Parsed args ->
  get registry (strip tool_name) = Some entry ->
  world (started_client entry) ("optimizer-" ++ prefix 8 uuid_hex) (strip tool_name) args
  = inr value ->
  (forall d, value <> PyDict d) ->
  let result := call_tool py registry world uuid_hex tool_name arguments in
  result.1 = Returned (if Py.truthy value then Py.str value else empty_result)
  /\ (value ∈ [PyNone; PyStr ""; PyInt 0; PyBool false; PyList []] ->
      result.1 = Returned empty_result)
  /\ (forall s, value = PyStr s -> s <> "" -> result.1 = Returned s).
Proof.
  intros Hname Hparse Hget Hworld Hplain result.
  assert (Hres : result.1
                 = Returned (if Py.truthy value then Py.str value else empty_result)).
  { subst result.
    rewrite (call_tool_dispatch py registry world uuid_hex tool_name arguments args entry)
      by done.
    cbv zeta. rewrite Hworld. cbn [fst snd].
    destruct value; try reflexivity. by destruct (Hplain d). }
  split; [exact Hres|]. split.
  - intros Hin. rewrite Hres.
    repeat (apply elem_of_cons in Hin as [-> |Hin]; [reflexivity|]).
    by apply elem_of_nil in Hin.
  - intros s -> Hs. rewrite Hres. simpl. apply String.eqb_neq in Hs. by rewrite Hs.
Qed.

Lemma call_tool_plain_result_witness :
  (call_tool Samples.py Samples.catalog (Samples.answers PyNone) Samples.uuid_hex
             "get_issue" (ArgStr "{}")).1
  = Returned "(Tool returned an empty result)".
Proof.
  assert (Hname : strip "get_issue" <> "") by (vm_compute; discriminate).
  assert (Hparse : parse_arguments Samples.py (ArgStr "{}") = Parsed (JObj []))
    by (vm_compute; reflexivity).
  destruct (call_tool_plain_result Samples.py Samples.catalog (Samples.answers PyNone)
              Samples.uuid_hex "get_issue" (ArgStr "{}") (JObj [])
              (make_entry "Jira" 1 (Samples.tool "get_issue" "Get one issue by key"))
              PyNone Hname Hparse eq_refl eq_refl) as (_ & Hmarker & _).
  - intros d H. discriminate H.
  - apply Hmarker. apply list_elem_of_here.
Defined.

Lemma search_nothing_registered (self : MCPToolRegistry) (query : string) (top_k : Z) :
  all_tools self = [] -> search self query top_k = [].
Proof.
  intros Hempty. pose proof (search_length self query top_k) as [Hlen _].
  unfold total in Hlen. unfold all_tools in Hempty. rewrite Hempty in Hlen.
  destruct (search self query top_k); [done|simpl in Hlen; lia].
Qed.

(** X16. With nothing registered, every search is empty: [find_tool]
    answers a query that is not blank with the no-tools message naming
    "none" as the available servers, and [call_tool] answers a name that is
    not blank, given arguments that decode, with the not-found message
    whose suggestions are "none found"; no session is called. *)
Theorem tools_on_empty_registry
        (dumps : json -> string) (py : interpreter) (world : backend)
        (uuid_hex text : string) (arguments : raw_arguments) (args : json) (top_k : Z) :
  strip text <> "" ->
  parse_arguments py arguments = Parsed args ->
  search init text top_k = []
  /\ servers init = []
  /\ find_tool dumps init text top_k
     = "No tools found matching '" ++ strip text ++ "'." ++ nl
         ++ "Available servers: none" ++ nl ++ "Try a broader search term."
  /\ call_tool py init world uuid_hex text arguments
     = (Returned ("ERROR: Tool '" ++ strip text ++ "' not found in registry." ++ nl
                    ++ "Did you mean: none found?" ++ nl
                    ++ "Use find_tool to search for the correct tool name."),
        [RegistryGet (strip text); RegistrySearch (strip text) 3]).
Proof.
  intros Hname Hparse.
  split; [by apply search_nothing_registered|]. split; [done|]. split.
  - unfold find_tool. apply String.eqb_neq in Hname. rewrite Hname.
    by rewrite search_nothing_registered.
  - rewrite (call_tool_unknown py init world uuid_hex text arguments args) by done.
    by rewrite search_nothing_registered.
Qed.

Lemma tools_on_empty_registry_witness :
  strip "list issues" <> ""
  /\ find_tool (fun _ => "{}") init "list issues" 5
     = "No tools found matching 'list issues'." ++ nl
         ++ "Available servers: none" ++ nl ++ "Try a broader search term.".
Proof.
  assert (Hname : strip "list issues" <> "") by (vm_compute; discriminate).
  assert (Hparse : parse_arguments Samples.py (ArgStr "{}") = Parsed (JObj []))
    by (vm_compute; reflexivity).
  split; [exact Hname|].
  exact (proj1 (proj2 (proj2 (tools_on_empty_registry (fun _ => "{}") Samples.py
                                (Samples.answers PyNone) Samples.uuid_hex "list issues"
                                (ArgStr "{}") (JObj []) 5 Hname Hparse)))).
Defined.

(** X17. The not-found answer of [call_tool] suggests at most three names,
    each the qualified name of a registered entry, in the order of
    [search(name, 3)]; it says "none found" when that search is empty. *)
Theorem call_tool_suggestions
        (py : interpreter) (registry : MCPToolRegistry) (world : backend) (uuid_hex tool_name : string)
        (arguments : raw_arguments) (args : json) :
  strip tool_name <> "" ->
  parse_arguments py arguments = Parsed args ->
  get registry (strip tool_name) = None ->
  exists similar,
    similar = search registry (strip tool_name) 3
    /\ (length similar <= 3)%nat
    /\ (forall e, e ∈ similar -> e ∈ all_tools registry)
    /\ (call_tool py registry world uuid_hex tool_name arguments).1
       = Returned ("ERROR: Tool '" ++ strip tool_name ++ "' not found in registry." ++ nl
                     ++ "Did you mean: "
                     ++ (if decide (similar = []) then "none found"
                         else join ", " (map name similar)) ++ "?" ++ nl
                     ++ "Use find_tool to search for the correct tool name.").
Proof.
  intros Hname Hparse Hget. exists (search registry (strip tool_name) 3).
  split; [done|]. split; [|split].
  - pose proof (search_length registry (strip tool_name) 3) as [_ Hk].
    specialize (Hk ltac:(lia)). simpl in Hk. lia.
  - intros e. apply search_elem_registered.
  - rewrite (call_tool_unknown py registry world uuid_hex tool_name arguments args) by done.
    cbn [fst]. unfold not_found_message.
    by destruct (search registry (strip tool_name) 3).
Qed.

Lemma call_tool_suggestions_witness :
  (call_tool Samples.py Samples.catalog (Samples.answers PyNone) Samples.uuid_hex
             "issues" (ArgStr "{}")).1
  = Returned ("ERROR: Tool 'issues' not found in registry." ++ nl
                ++ "Did you mean: jira_list_issues, github_list_issues?" ++ nl
                ++ "Use find_tool to search for the correct tool name.").
Proof.
  assert (Hname : strip "issues" <> "") by (vm_compute; discriminate).
  assert (Hparse : parse_arguments Samples.py (ArgStr "{}") = Parsed (JObj []))
    by (vm_compute; reflexivity).
  destruct (call_tool_suggestions Samples.py Samples.catalog (Samples.answers PyNone)
              Samples.uuid_hex "issues" (ArgStr "{}") (JObj []) Hname Hparse eq_refl)
    as (similar & Hsimilar & _ & _ & Hres).
  rewrite Hres, Hsimilar. vm_compute. reflexivity.
Defined.

Lemma render_loop_spec (dumps : json -> string) (results : list entry) : forall i lines,
  render_loop dumps i results lines
  = (lines ++ imap (fun j e => render_entry dumps (i + j) e) results)%list.
Proof.
  induction results as [|e results IH]; intros i lines; simpl.
  - by rewrite app_nil_r.
  - rewrite IH, <- app_assoc. simpl. rewrite Nat.add_0_r. do 2 f_equal.
    apply imap_ext. intros j x _. simpl. f_equal. lia.
Qed.

(** X18. For a query that is not blank and finds something, [find_tool]
    answers with a header that counts the entries found and one block per
    entry, numbered from 1 in the order of [search]; each block starts with
    its number and the entry's qualified name.  For [top_k >= 0] there are
    at most [top_k] blocks. *)
Theorem find_tool_lists_search_results
        (dumps : json -> string) (registry : MCPToolRegistry) (query : string) (top_k : Z) :
  strip query <> "" ->
  let results := search registry (strip query) top_k in
  results <> [] ->
  find_tool dumps registry query top_k
  = join nl (("Found " ++ pretty (length results) ++ " tool(s) matching '"
                ++ strip query ++ "':" ++ nl)
               :: imap (fun j e => render_entry dumps (S j) e) results)
  /\ ((0 <= top_k)%Z -> (length results <= Z.to_nat top_k)%nat)
  /\ (forall j e, results !! j = Some e ->
                  exists rest, render_entry dumps (S j) e
                               = "[" ++ pretty (S j) ++ "] " ++ name e ++ rest).
Proof.
  intros Hquery results Hfound. split; [|split].
  - unfold find_tool. apply String.eqb_neq in Hquery. rewrite Hquery.
    fold results. destruct results as [|e rest] eqn:Hres; [done|].
    by rewrite render_loop_spec.
  - apply search_length.
  - intros j e _. unfold render_entry. eexists. reflexivity.
Qed.

Lemma find_tool_lists_search_results_witness :
  strip " issues " <> ""
  /\ search Samples.catalog (strip " issues ") 1 <> []
  /\ find_tool (fun _ => "{}") Samples.catalog " issues " 1
     = join nl ["Found 1 tool(s) matching 'issues':" ++ nl;
                "[1] jira_list_issues  (server: Jira)" ++ nl
                  ++ "    Description : list jira issues" ++ nl
                  ++ "    Input schema:" ++ nl ++ "{}" ++ nl].
Proof.
  assert (Hquery : strip " issues " <> "") by (vm_compute; discriminate).
  assert (Hfound : search Samples.catalog (strip " issues ") 1 <> [])
    by (vm_compute; discriminate).
  split; [exact Hquery|]. split; [exact Hfound|].
  destruct (find_tool_lists_search_results (fun _ => "{}") Samples.catalog " issues " 1
              Hquery Hfound) as [Hout _].
  rewrite Hout. vm_compute. reflexivity.
Defined.

Lemma search_no_tokens (self : MCPToolRegistry) (query : string) (top_k : Z) :
  tokens query = ∅ -> search self query top_k = slice_to top_k (all_tools self).
Proof. intros Hempty. unfold search. by destruct (decide (tokens query = ∅)). Qed.

(** X19. The guard of [find_tool] stops blank queries only.  A query that
    is not blank but has no token (punctuation, say) reaches the list-all
    case of [search]: with [top_k > 0] and a tool registered, [find_tool]
    then presents the first [top_k] registered tools, in registration
    order, as found. *)
Theorem find_tool_query_without_tokens
        (dumps : json -> string) (registry : MCPToolRegistry) (query : string) (top_k : Z) :
  strip query <> "" ->
  tokens (strip query) = ∅ ->
  (0 < top_k)%Z ->
  all_tools registry <> [] ->
  let listed := take (Z.to_nat top_k) (all_tools registry) in
  listed <> []
  /\ find_tool dumps registry query top_k
     = join nl (("Found " ++ pretty (length listed) ++ " tool(s) matching '"
                   ++ strip query ++ "':" ++ nl)
                  :: imap (fun j e => render_entry dumps (S j) e) listed).
Proof.
  intros Hquery Htokens Hk Htools listed.
  assert (Hsearch : search registry (strip query) top_k = listed).
  { rewrite search_no_tokens by done. apply slice_to_nonneg. lia. }
  assert (Hlisted : listed <> []).
  { subst listed. destruct (all_tools registry) as [|e rest]; [done|].
    destruct (Z.to_nat top_k) as [|n] eqn:Hn; [lia|]. done. }
  split; [exact Hlisted|].
  unfold find_tool. apply String.eqb_neq in Hquery. rewrite Hquery, Hsearch.
  destruct listed as [|e rest]; [done|]. by rewrite render_loop_spec.
Qed.

Lemma find_tool_query_without_tokens_witness :
  strip "?!" <> "" /\ tokens (strip "?!") = ∅
  /\ find_tool (fun _ => "{}") Samples.catalog "?!" 1
     = join nl ["Found 1 tool(s) matching '?!':" ++ nl;
                "[1] jira_list_issues  (server: Jira)" ++ nl
                  ++ "    Description : list jira issues" ++ nl
                  ++ "    Input schema:" ++ nl ++ "{}" ++ nl].
Proof.
  assert (Hquery : strip "?!" <> "") by (vm_compute; discriminate).
  assert (Htokens : tokens (strip "?!") = ∅) by reflexivity.
  assert (Htools : all_tools Samples.catalog <> []) by (vm_compute; discriminate).
  split; [exact Hquery|]. split; [exact Htokens|].
  destruct (find_tool_query_without_tokens (fun _ => "{}") Samples.catalog "?!" 1
              Hquery Htokens ltac:(lia) Htools) as [_ Hout].
  rewrite Hout. vm_compute. reflexivity.
Defined.
